(** * License management backend: activation, validation and administration

    A shallow embedding of [backend/app.py] and [backend/models.py].

    - The relational store is three tables (licenses, devices, audit log),
      each a list of rows in insertion order; [Query.first] is the
      [.first()] of a [filter_by] query, and a row that a handler mutates
      and commits is written back at the position where it was found.
    - [datetime.utcnow()] is read several times inside one request.  Every
      handler therefore takes a record with one clock reading per call
      site, named after the place that reads it.
    - The storage engine behind the ORM is SQLite, the default of
      [SQLALCHEMY_DATABASE_URI].  What it makes of a text written to a
      column declared [db.Integer] is the field of the class
      [Sqlite.Engine].
    - The JWT library ([import jwt], PyJWT) is not part of the repository.
      Its serialisation and its MAC are the fields of the class
      [PyJWT.Backend]; what the library does with them (sign, verify,
      truncate [exp] to whole seconds, compare it with the clock) is
      written out in [PyJWT.encode] and [PyJWT.decode]. *)

From Stdlib Require Import ZArith Lia Ascii String SpecFloat.
From stdpp Require Import base decidable option numbers list strings countable.

#[local] Open Scope Z_scope.

(** ** Naive UTC datetimes ([datetime.datetime], [datetime.timedelta]) *)

Module Datetime.

(** A datetime is its number of microseconds since 1970-01-01T00:00:00; a
    timedelta is a number of microseconds. *)
Definition datetime : Type := Z.
Definition timedelta : Type := Z.

Definition US_PER_SECOND : Z := 1000000.
Definition US_PER_DAY : Z := 86400 * US_PER_SECOND.

(** [datetime.min] is 0001-01-01T00:00:00 and [datetime.max] is
    9999-12-31T23:59:59.999999. *)
Definition MIN : datetime := -62135596800 * US_PER_SECOND.
Definition MAX : datetime := 253402300800 * US_PER_SECOND - 1.

(** [timedelta(days=d)]: OverflowError (here [None]) when the magnitude of
    [d] exceeds 999999999. *)
Definition timedelta_days (d : Z) : option timedelta :=
  if decide (-999999999 ≤ d ≤ 999999999) then Some (d * US_PER_DAY) else None.

(** [timedelta(hours=h)] for the small constants the program uses. *)
Definition timedelta_hours (h : Z) : timedelta := h * 3600 * US_PER_SECOND.

(** [t + d]: OverflowError (here [None]) when the sum leaves
    [datetime.min .. datetime.max]. *)
Definition add (t : datetime) (d : timedelta) : option datetime :=
  if decide (MIN ≤ t + d ≤ MAX) then Some (t + d) else None.

(** [t1 - t2] *)
Definition sub (t1 t2 : datetime) : timedelta := t1 - t2.

(** [delta.days]: a timedelta is normalised with a non-negative remainder,
    so [days] is the floor of the quotient. *)
Definition days (delta : timedelta) : Z := delta `div` US_PER_DAY.

(** [calendar.timegm(t.utctimetuple())]: whole seconds since the epoch,
    the microseconds dropped. *)
Definition timegm (t : datetime) : Z := t `div` US_PER_SECOND.

End Datetime.

Export Datetime (datetime, timedelta).

(** ** Python strings *)

(** [s[n:]] *)
Fixpoint string_drop (n : nat) (s : string) : string :=
  match n, s with
  | O, _ => s
  | S n', String _ s' => string_drop n' s'
  | S _, EmptyString => EmptyString
  end.

(** [s.startswith(p)] *)
Definition startswith (p s : string) : bool := String.prefix p s.

(** ** The storage engine (SQLite)

    The engine is not part of the repository.  A column declared
    [db.Integer] has INTEGER affinity: a text written to it is kept as an
    integer when it reads as one, as a float (or the integer that float
    equals) when it reads as another numeric literal, and as the text
    itself otherwise.  [Engine] holds that conversion.  Its two laws are
    the cases that do not depend on how the engine reads floats: a string
    of decimal digits whose value fits 64 bits is kept as that integer, and
    a text with a character that no numeric literal contains is kept as it
    is. *)

Module Sqlite.

(** What a cell holds when it is not NULL, as the DB-API hands it back:
    an [int], a [float] (binary64) or a [str]. *)
Inductive value : Type :=
| Integer (z : Z)
| Real (x : spec_float)
| Text (s : string).

#[global] Instance spec_float_eq_dec : EqDecision spec_float.
Proof. solve_decision. Defined.

#[global] Instance value_eq_dec : EqDecision value.
Proof. solve_decision. Defined.

Definition INT64_MAX : Z := 2 ^ 63 - 1.

(** The value of a decimal digit. *)
Definition digit (c : ascii) : option Z :=
  let n := Z.of_N (N_of_ascii c) in
  if decide (48 ≤ n ≤ 57) then Some (n - 48) else None.

Fixpoint decimal_from (acc : Z) (s : string) : option Z :=
  match s with
  | EmptyString => Some acc
  | String c s' =>
      match digit c with
      | Some d => decimal_from (10 * acc + d) s'
      | None => None
      end
  end.

(** The integer a non-empty string of decimal digits writes. *)
Definition decimal (s : string) : option Z :=
  match s with
  | EmptyString => None
  | _ => decimal_from 0 s
  end.

(** The characters a numeric literal is made of: digits, a sign, a point,
    an exponent mark, and the white space the engine skips around it
    (here every character up to the space). *)
Definition numeric_char (c : ascii) : bool :=
  bool_decide (is_Some (digit c)) ||
  bool_decide (c ∈ ["+"; "-"; "."; "e"; "E"]%char) ||
  bool_decide (N_of_ascii c ≤ 32)%N.

Fixpoint numeric_chars (s : string) : bool :=
  match s with
  | EmptyString => true
  | String c s' => numeric_char c && numeric_chars s'
  end.

Class Engine : Type := {
  integer_affinity : string → value;
  integer_affinity_decimal : ∀ s z,
    decimal s = Some z → z ≤ INT64_MAX → integer_affinity s = Integer z;
  integer_affinity_text : ∀ s,
    numeric_chars s = false → integer_affinity s = Text s
}.

End Sqlite.

(** *** A concrete engine

    Used to instantiate the development: it converts the decimal integers
    of the first law and keeps every other text. *)

Module ReferenceEngine.

Definition integer_affinity (s : string) : Sqlite.value :=
  match Sqlite.decimal s with
  | Some z => if decide (z ≤ Sqlite.INT64_MAX) then Sqlite.Integer z
              else Sqlite.Text s
  | None => Sqlite.Text s
  end.

Lemma digit_numeric c : is_Some (Sqlite.digit c) → Sqlite.numeric_char c = true.
Proof.
  intros Hc. unfold Sqlite.numeric_char. by rewrite bool_decide_eq_true_2.
Qed.

Lemma decimal_from_numeric s : ∀ acc,
  is_Some (Sqlite.decimal_from acc s) → Sqlite.numeric_chars s = true.
Proof.
  induction s as [|c s IH]; intros acc; simpl; [done|].
  destruct (Sqlite.digit c) as [d|] eqn:Hc; [|by intros [? [=]]].
  intros Hs. rewrite (digit_numeric c) by (by rewrite Hc).
  by apply (IH (10 * acc + d)).
Qed.

Lemma decimal_numeric s :
  is_Some (Sqlite.decimal s) → Sqlite.numeric_chars s = true.
Proof.
  destruct s as [|c s]; [by intros [? [=]]|]. apply decimal_from_numeric.
Qed.

Lemma kept_decimal s z :
  Sqlite.decimal s = Some z → z ≤ Sqlite.INT64_MAX →
  integer_affinity s = Sqlite.Integer z.
Proof.
  intros Hs Hz. unfold integer_affinity. rewrite Hs. by rewrite decide_True.
Qed.

Lemma kept_text s :
  Sqlite.numeric_chars s = false → integer_affinity s = Sqlite.Text s.
Proof.
  intros Hs. unfold integer_affinity.
  destruct (Sqlite.decimal s) as [z|] eqn:Hz; [|done].
  rewrite decimal_numeric in Hs; [done|by rewrite Hz].
Qed.

Definition engine : Sqlite.Engine := {|
  Sqlite.integer_affinity := integer_affinity;
  Sqlite.integer_affinity_decimal := kept_decimal;
  Sqlite.integer_affinity_text := kept_text
|}.

End ReferenceEngine.

(** ** Models ([models.py]) *)

Module License.

Record row : Type := Row {
  id : Z;
  key : string;
  status : string;                  (* active, expired, revoked *)
  expires_at : option datetime;
  created_at : option datetime;
  revoked_at : option datetime;
  created_by : option Z;
  revoked_by : option Z
}.

Definition set_status (v : string) (l : row) : row :=
  Row (id l) (key l) v (expires_at l) (created_at l) (revoked_at l)
      (created_by l) (revoked_by l).

Definition set_revoked_at (v : option datetime) (l : row) : row :=
  Row (id l) (key l) (status l) (expires_at l) (created_at l) v
      (created_by l) (revoked_by l).

Definition set_revoked_by (v : option Z) (l : row) : row :=
  Row (id l) (key l) (status l) (expires_at l) (created_at l) (revoked_at l)
      (created_by l) v.

(** The [is_expired] property. *)
Definition is_expired (l : row) (utcnow : datetime) : bool :=
  match expires_at l with
  | None => false
  | Some e => bool_decide (utcnow > e)
  end.

(** The [days_remaining] property: clamped at zero. *)
Definition days_remaining (l : row) (utcnow : datetime) : option Z :=
  match expires_at l with
  | None => None
  | Some e =>
      let delta := Datetime.sub e utcnow in
      Some (if decide (Datetime.days delta > 0) then Datetime.days delta else 0)
  end.

End License.

Module Device.

Record row : Type := Row {
  id : Z;
  device_id : string;
  device_info : option string;
  fcm_token : option string;
  registered_at : option datetime;
  last_validated : option datetime;
  is_active : bool;
  license_id : Z
}.

Definition set_last_validated (v : option datetime) (d : row) : row :=
  Row (id d) (device_id d) (device_info d) (fcm_token d) (registered_at d) v
      (is_active d) (license_id d).

End Device.

Module AuditLog.

Record row : Type := Row {
  id : Z;
  action : string;
  details : option string;
  ip_address : option string;
  user_agent : option string;
  created_at : option datetime;
  license_id : option Z;
  device_id : option Sqlite.value;      (* Integer, ForeignKey devices.id *)
  admin_user_id : option Z
}.

End AuditLog.

#[global] Instance license_row_eq_dec : EqDecision License.row.
Proof. solve_decision. Defined.
#[global] Instance device_row_eq_dec : EqDecision Device.row.
Proof. solve_decision. Defined.
#[global] Instance audit_row_eq_dec : EqDecision AuditLog.row.
Proof. solve_decision. Defined.

(** ** The record store *)

Record db : Type := Db {
  licenses : list License.row;
  devices : list Device.row;
  audit_logs : list AuditLog.row
}.

#[global] Instance db_eq_dec : EqDecision db.
Proof. solve_decision. Defined.

Definition empty_db : db := Db [] [] [].

Module Query.

(** [Model.query.filter_by(...).first()]: the first row, in table order,
    that satisfies the filter, with its position. *)
Definition first {A} (P : A → Prop) `{∀ x, Decision (P x)} (table : list A)
  : option (nat * A) := list_find P table.

(** The integer primary key given to a row inserted without one: one more
    than the largest in the table. *)
Definition next_id (ids : list Z) : Z := 1 + foldr Z.max 0 ids.

End Query.

(** ** The JWT library (PyJWT, HS256)

    The library is imported by [app.py] and is not part of the repository.
    [Backend] holds what is opaque here: the MAC, the serialisation of a
    header and payload into the signing input, the joining of signing
    input and signature into the compact token, the parser of a presented
    token, and the two points on which releases of the library differ when
    they compare [exp] with the clock (whether the clock is first cut to
    whole seconds, and whether a token presented exactly at [exp] is
    already expired).  [split_join] is the one law assumed of the
    serialisation: a token the library produced parses back to what was
    put in. *)

Module PyJWT.

Record claims : Type := Claims {
  user_id : option string;
  license_id : option Z;
  exp : option Z                    (* NumericDate: whole seconds *)
}.

Record jws : Type := Jws {
  alg : string;
  payload : claims;
  signing_input : string;
  signature : string
}.

Class Backend : Type := {
  hmac_sha256 : string → string → string;
  segments : claims → string;
  join : string → string → string;
  split : string → option jws;
  now_in_whole_seconds : bool;
  expired_when_equal : bool;
  split_join : ∀ c sig,
    split (join (segments c) sig) = Some (Jws "HS256" c (segments c) sig)
}.

(** The three outcomes [app.py] tells apart: a payload, or one of the two
    exception classes it catches ([ExpiredSignatureError] first, then its
    base class [InvalidTokenError]). *)
Inductive decoded : Type :=
| Payload (data : claims)
| ExpiredSignatureError
| InvalidTokenError.

Section Library.
Context `{B : Backend}.

(** [jwt.encode({'user_id': u, 'license_id': l, 'exp': e}, key,
    algorithm='HS256')]: a datetime under [exp] is replaced by
    [timegm(e.utctimetuple())]. *)
Definition encode (u : string) (l : Z) (e : datetime) (key : string) : string :=
  let c := Claims (Some u) (Some l) (Some (Datetime.timegm e)) in
  join (segments c) (hmac_sha256 key (segments c)).

(** The [exp] validation, in microseconds. *)
Definition expired (e : Z) (now : datetime) : bool :=
  let now' :=
    if now_in_whole_seconds
    then Datetime.timegm now * Datetime.US_PER_SECOND
    else now in
  if expired_when_equal
  then bool_decide (e * Datetime.US_PER_SECOND ≤ now')
  else bool_decide (e * Datetime.US_PER_SECOND < now').

(** [jwt.decode(token, key, algorithms=['HS256'])] when the library's
    clock reads [now]. *)
Definition decode (token key : string) (now : datetime) : decoded :=
  match split token with
  | None => InvalidTokenError                              (* DecodeError *)
  | Some j =>
      if decide (alg j = "HS256") then
        if decide (signature j = hmac_sha256 key (signing_input j)) then
          match exp (payload j) with
          | Some e =>
              if expired e now then ExpiredSignatureError
              else Payload (payload j)
          | None => Payload (payload j)
          end
        else InvalidTokenError                     (* InvalidSignatureError *)
      else InvalidTokenError                       (* InvalidAlgorithmError *)
  end.

End Library.

End PyJWT.

(** *** A concrete backend

    Used to instantiate the development: the serialisation writes the
    [Countable] code of a value in binary digits. *)

Module ReferenceBackend.

#[global] Instance claims_eq_dec : EqDecision PyJWT.claims.
Proof. solve_decision. Defined.

#[global] Instance claims_countable : Countable PyJWT.claims.
Proof.
  refine (inj_countable'
    (λ c, (PyJWT.user_id c, PyJWT.license_id c, PyJWT.exp c))
    (λ t, PyJWT.Claims t.1.1 t.1.2 t.2) _).
  by intros [].
Defined.

Fixpoint digits (p : positive) : string :=
  match p with
  | xH => EmptyString
  | xO p' => String "0"%char (digits p')
  | xI p' => String "1"%char (digits p')
  end.

Fixpoint undigits (s : string) : option positive :=
  match s with
  | EmptyString => Some xH
  | String c s' =>
      if decide (c = "0"%char) then xO <$> undigits s'
      else if decide (c = "1"%char) then xI <$> undigits s'
      else None
  end.

Lemma undigits_digits p : undigits (digits p) = Some p.
Proof. induction p as [p IH|p IH|]; simpl; rewrite ?IH; done. Qed.

Definition write {A} `{Countable A} (x : A) : string := digits (encode x).

Definition read {A} `{Countable A} (s : string) : option A :=
  undigits s ≫= decode.

Lemma read_write {A} `{Countable A} (x : A) : read (write x) = Some x.
Proof.
  unfold read, write. rewrite undigits_digits. simpl. apply decode_encode.
Qed.

Definition split (s : string) : option PyJWT.jws :=
  '(input, sig) ← read (A := string * string) s;
  c ← read (A := PyJWT.claims) input;
  Some (PyJWT.Jws "HS256" c input sig).

Lemma split_join (c : PyJWT.claims) (sig : string) :
  split (write (write c, sig)) = Some (PyJWT.Jws "HS256" c (write c) sig).
Proof.
  unfold split. rewrite read_write. simpl. rewrite read_write. done.
Qed.

(** The clock keeps its microseconds and a token presented exactly at
    [exp] is expired, as in the current releases of the library. *)
Definition backend : PyJWT.Backend := {|
  PyJWT.hmac_sha256 := λ key msg, key +:+ ":" +:+ msg;
  PyJWT.segments := λ c, write c;
  PyJWT.join := λ input sig, write (input, sig);
  PyJWT.split := split;
  PyJWT.now_in_whole_seconds := false;
  PyJWT.expired_when_equal := true;
  PyJWT.split_join := split_join
|}.

(** The same serialisation, under each of the four answers to the two
    questions of [PyJWT.Backend]. *)
Definition backend_with (whole_seconds at_equal : bool) : PyJWT.Backend := {|
  PyJWT.hmac_sha256 := λ key msg, key +:+ ":" +:+ msg;
  PyJWT.segments := λ c, write c;
  PyJWT.join := λ input sig, write (input, sig);
  PyJWT.split := split;
  PyJWT.now_in_whole_seconds := whole_seconds;
  PyJWT.expired_when_equal := at_equal;
  PyJWT.split_join := split_join
|}.

End ReferenceBackend.

(** ** Requests, responses and clocks ([app.py]) *)

(** What the JSON body of [POST /activate] holds under one of its keys:
    [null] or a string, the type the docstring of [activate_license]
    expects there. *)
Inductive json_value : Type :=
| JsonNull
| JsonString (s : string).

(** The Python object of a JSON value: [None] or a [str]. *)
Definition json_text (v : json_value) : option string :=
  match v with
  | JsonNull => None
  | JsonString s => Some s
  end.

(** The JSON body of [POST /activate]: a key that is absent is [None]. *)
Record activate_json : Type := ActivateJson {
  license_key : option json_value;
  device_id : option json_value;
  device_info : option json_value
}.

(** [jsonify(...)] of [activate_license], with the HTTP status. *)
Inductive activate_response : Type :=
| Activated (token license_status : string) (expires_at : option datetime)
| ActivateError (code : Z) (error : string).

(** [jsonify(...)] of [validate_license] and of [jwt_required]; an error
    body may carry a [status] field. *)
Inductive validate_response : Type :=
| Valid (license_status : string) (expires_at : option datetime)
        (days_remaining : option Z)
| ValidateError (code : Z) (error : string) (status : option string).

(** What [jwt_required] does with a request: call the view with the
    subject of the token, or answer by itself. *)
Inductive jwt_outcome : Type :=
| Call (current_user_id : string)
| Reject (code : Z) (error : string).

(** [int(request.form.get('duration_days', 7))]: the field is absent, holds
    the literal of an integer, or holds something [int] raises on. *)
Inductive int_field : Type :=
| FieldAbsent
| FieldInt (z : Z)
| FieldNotInt.

(** The form of [POST /admin/licenses/create]. *)
Record create_form : Type := CreateForm {
  form_key : option string;
  form_duration_days : int_field
}.

(** The answer of an admin view: a flashed message before the redirect to
    the license list, or the redirect of [login_required] to the login
    page. *)
Inductive admin_response : Type :=
| Flash (message category : string)
| LoginRedirect.

(** The readings of [datetime.utcnow()], one per call site. *)
Record activate_clock : Type := ActivateClock {
  activate_at_expiry_check : datetime;      (* line 94 *)
  activate_at_registered : datetime;        (* line 124 *)
  activate_at_audit : datetime;             (* AuditLog.created_at default *)
  activate_at_token : datetime              (* lines 107 and 143 *)
}.

Record validate_clock : Type := ValidateClock {
  validate_at_decode : datetime;            (* inside jwt.decode *)
  validate_at_expiry_check : datetime;      (* line 180 *)
  validate_at_last_validated : datetime;    (* line 186 *)
  validate_at_days_remaining : datetime     (* line 193 *)
}.

Record create_clock : Type := CreateClock {
  create_at_expires : datetime;             (* line 261 *)
  create_at_created : datetime              (* License.created_at default *)
}.

Record revoke_clock : Type := RevokeClock {
  revoke_at_revoked : datetime;             (* line 287 *)
  revoke_at_audit : datetime                (* AuditLog.created_at default *)
}.

(** [app.config['JWT_ACCESS_TOKEN_EXPIRES'] = timedelta(hours=24)] *)
Definition JWT_ACCESS_TOKEN_EXPIRES : timedelta := Datetime.timedelta_hours 24.

(** [license_obj.expires_at and license_obj.expires_at < datetime.utcnow()] *)
Definition expires_before (l : License.row) (utcnow : datetime) : bool :=
  match License.expires_at l with
  | None => false
  | Some e => bool_decide (e < utcnow)
  end.

(** [if token.startswith('Bearer '): token = token[7:]] *)
Definition strip_bearer (token : string) : string :=
  if startswith "Bearer " token then string_drop 7 token else token.

Definition set_licenses (v : list License.row) (s : db) : db :=
  Db v (devices s) (audit_logs s).

Definition set_devices (v : list Device.row) (s : db) : db :=
  Db (licenses s) v (audit_logs s).

Section App.

Context `{B : PyJWT.Backend} `{E : Sqlite.Engine}.

(** [app.config['JWT_SECRET_KEY']] *)
Variable JWT_SECRET_KEY : string.

(** *** [jwt_required] *)
Definition jwt_required (authorization : option string) (now : datetime)
  : jwt_outcome :=
  match authorization with
  | None => Reject 401 "Token is missing"
  | Some token =>
      if decide (token = "") then Reject 401 "Token is missing"
      else
        let token := strip_bearer token in
        match PyJWT.decode token JWT_SECRET_KEY now with
        | PyJWT.Payload data =>
            match PyJWT.user_id data with
            | Some current_user_id => Call current_user_id
            | None => Reject 500 "Internal server error"       (* KeyError *)
            end
        | PyJWT.ExpiredSignatureError => Reject 401 "Token has expired"
        | PyJWT.InvalidTokenError => Reject 401 "Token is invalid"
        end
  end.

(** The token both branches of [activate_license] build; the addition may
    overflow, which the handler's [except Exception] turns into a 500. *)
Definition issue_token (device_id : string) (license_obj : License.row)
    (utcnow : datetime) : activate_response :=
  match Datetime.add utcnow JWT_ACCESS_TOKEN_EXPIRES with
  | Some e =>
      Activated
        (PyJWT.encode device_id (License.id license_obj) e JWT_SECRET_KEY)
        (License.status license_obj) (License.expires_at license_obj)
  | None => ActivateError 500 "Internal server error"
  end.

(** *** [POST /activate]

    A [null] under [license_key] or [device_id] passes the test of line 77.
    [filter_by(key=None)] and [filter_by(device_id=None)] compare with
    [IS NULL] and find no row, both columns being NOT NULL; the Device row
    of a [null] device_id is refused by that constraint at the commit,
    which the handler's [except Exception] rolls back. *)
Definition activate_license (s : db) (data : activate_json)
    (clk : activate_clock) : activate_response * db :=
  match license_key data, device_id data with
  | Some license_key, Some device_id =>
    let device_info := default (JsonString "") (device_info data) in
    match license_key with
    | JsonNull =>                                  (* key IS NULL: no row *)
        (ActivateError 404 "Invalid license key", s)
    | JsonString license_key =>
      match Query.first (λ l, License.key l = license_key) (licenses s) with
      | None => (ActivateError 404 "Invalid license key", s)
      | Some (i, license_obj) =>
        if decide (License.status license_obj ≠ "active") then
          (ActivateError 400 "License is not active", s)
        else if expires_before license_obj (activate_at_expiry_check clk) then
          (ActivateError 400 "License has expired",
           set_licenses
             (<[i := License.set_status "expired" license_obj]> (licenses s))
             s)
        else
          match device_id with
          | JsonNull =>         (* device_id IS NULL: no row; IntegrityError *)
              (ActivateError 500 "Internal server error", s)
          | JsonString device_id =>
            match Query.first (λ d, Device.device_id d = device_id)
                    (devices s) with
            | Some (_, existing_device) =>
                if decide (Device.license_id existing_device
                           = License.id license_obj)
                then
                  (issue_token device_id license_obj (activate_at_token clk),
                   s)
                else
                  (ActivateError 400
                     "Device already registered with different license", s)
            | None =>
                let device :=
                  Device.Row (Query.next_id (Device.id <$> devices s))
                    device_id (json_text device_info) None
                    (Some (activate_at_registered clk)) None true
                    (License.id license_obj) in
                let audit_log :=
                  AuditLog.Row (Query.next_id (AuditLog.id <$> audit_logs s))
                    "license_activated"
                    (Some ("Device " +:+ device_id +:+ " activated license "
                           +:+ license_key))
                    None None (Some (activate_at_audit clk))
                    (Some (License.id license_obj))
                    (Some (Sqlite.integer_affinity device_id))
                    None in
                (issue_token device_id license_obj (activate_at_token clk),
                 Db (licenses s) (devices s ++ [device])
                    (audit_logs s ++ [audit_log]))
            end
          end
      end
    end
  | _, _ => (ActivateError 400 "Missing required fields", s)
  end.

(** *** [POST /validate]: the view, then the decorated view *)
Definition validate_license (user_id : string) (s : db) (clk : validate_clock)
  : validate_response * db :=
  match Query.first (λ d, Device.device_id d = user_id) (devices s) with
  | None => (ValidateError 404 "Device not found" None, s)
  | Some (j, device) =>
      match Query.first (λ l, License.id l = Device.license_id device)
              (licenses s) with
      | None => (ValidateError 404 "License not found" None, s)
      | Some (i, license_obj) =>
          if decide (License.status license_obj ≠ "active") then
            (ValidateError 400 "License is not active"
               (Some (License.status license_obj)), s)
          else if expires_before license_obj (validate_at_expiry_check clk) then
            (ValidateError 400 "License has expired" (Some "expired"),
             set_licenses
               (<[i := License.set_status "expired" license_obj]> (licenses s)) s)
          else
            (Valid (License.status license_obj) (License.expires_at license_obj)
               (match License.expires_at license_obj with
                | Some e =>
                    Some (Datetime.days
                            (Datetime.sub e (validate_at_days_remaining clk)))
                | None => None
                end),
             set_devices
               (<[j := Device.set_last_validated
                         (Some (validate_at_last_validated clk)) device]>
                  (devices s)) s)
      end
  end.

Definition validate (s : db) (authorization : option string)
    (clk : validate_clock) : validate_response * db :=
  match jwt_required authorization (validate_at_decode clk) with
  | Call user_id => validate_license user_id s clk
  | Reject code error => (ValidateError code error None, s)
  end.

End App.

(** *** [login_required] *)
Definition login_required (current_user : option Z)
    (view : Z → admin_response * db) (s : db) : admin_response * db :=
  match current_user with
  | Some admin => view admin
  | None => (LoginRedirect, s)
  end.

(** *** [POST /admin/licenses/create] *)
Definition create_license (current_user : option Z) (s : db)
    (form : create_form) (clk : create_clock) : admin_response * db :=
  login_required current_user (λ current_user_id,
    match form_duration_days form with
    | FieldNotInt => (Flash "Error creating license" "error", s)  (* ValueError *)
    | duration_days =>
        let duration_days :=
          match duration_days with FieldInt z => z | _ => 7 end in
        match form_key form with
        | None => (Flash "License key is required" "error", s)
        | Some key =>
            if decide (key = "") then
              (Flash "License key is required" "error", s)
            else if decide (is_Some
                      (Query.first (λ l, License.key l = key) (licenses s)))
            then (Flash "License key already exists" "error", s)
            else
              match Datetime.timedelta_days duration_days
                      ≫= Datetime.add (create_at_expires clk) with
              | None =>
                  (Flash "Error creating license" "error", s) (* OverflowError *)
              | Some expires_at =>
                  let license_obj :=
                    License.Row (Query.next_id (License.id <$> licenses s))
                      key "active" (Some expires_at)
                      (Some (create_at_created clk)) None
                      (Some current_user_id) None in
                  (Flash "License created successfully" "success",
                   set_licenses (licenses s ++ [license_obj]) s)
              end
        end
    end) s.

(** *** [POST /admin/licenses/<int:license_id>/revoke]

    [get_or_404] aborts inside the [try]: the handler's [except Exception]
    catches it and flashes the error. *)
Definition revoke_license (current_user : option Z) (s : db)
    (license_id : Z) (clk : revoke_clock) : admin_response * db :=
  login_required current_user (λ current_user_id,
    match Query.first (λ l, License.id l = license_id) (licenses s) with
    | None => (Flash "Error revoking license" "error", s)
    | Some (i, license_obj) =>
        let license_obj' :=
          License.set_revoked_by (Some current_user_id)
            (License.set_revoked_at (Some (revoke_at_revoked clk))
               (License.set_status "revoked" license_obj)) in
        let audit_log :=
          AuditLog.Row (Query.next_id (AuditLog.id <$> audit_logs s))
            "license_revoked"
            (Some ("License " +:+ License.key license_obj
                   +:+ " revoked by admin"))
            None None (Some (revoke_at_audit clk))
            (Some license_id) None None in
        (Flash "License revoked successfully" "success",
         Db (<[i := license_obj']> (licenses s)) (devices s)
            (audit_logs s ++ [audit_log]))
    end) s.

(** ** The service as a state machine *)

Inductive request : Type :=
| Activate (data : activate_json) (clk : activate_clock)
| Validate (authorization : option string) (clk : validate_clock)
| CreateLicense (current_user : option Z) (form : create_form)
    (clk : create_clock)
| RevokeLicense (current_user : option Z) (license_id : Z)
    (clk : revoke_clock).

Inductive response : Type :=
| ActivateResponse (r : activate_response)
| ValidateResponse (r : validate_response)
| AdminResponse (r : admin_response).

Section Machine.

Context `{B : PyJWT.Backend} `{E : Sqlite.Engine}.
Variable JWT_SECRET_KEY : string.

Definition respond (s : db) (r : request) : response * db :=
  match r with
  | Activate data clk =>
      prod_map ActivateResponse id (activate_license JWT_SECRET_KEY s data clk)
  | Validate authorization clk =>
      prod_map ValidateResponse id (validate JWT_SECRET_KEY s authorization clk)
  | CreateLicense current_user form clk =>
      prod_map AdminResponse id (create_license current_user s form clk)
  | RevokeLicense current_user license_id clk =>
      prod_map AdminResponse id (revoke_license current_user s license_id clk)
  end.

Definition handle (s : db) (r : request) : db := (respond s r).2.

Definition run (s : db) (rs : list request) : db := foldl handle s rs.

(** The stores the service can be in: it starts on empty tables
    ([db.create_all()]) and only the handlers write. *)
Definition reachable (s : db) : Prop := ∃ rs, s = run empty_db rs.

(** The request [r], served on [s], reaches the expiry check of the
    license row at position [i]: an activation whose key resolves to that
    row, or a validation whose token is accepted and whose device is bound
    to that row. *)
Definition checks (s : db) (r : request) (i : nat) : Prop :=
  match r with
  | Activate data _ =>
      ∃ k d l,
        license_key data = Some (JsonString k) ∧ device_id data = Some d ∧
        Query.first (λ l, License.key l = k) (licenses s) = Some (i, l)
  | Validate authorization clk =>
      ∃ u j dev l,
        jwt_required JWT_SECRET_KEY authorization (validate_at_decode clk)
          = Call u ∧
        Query.first (λ d, Device.device_id d = u) (devices s) = Some (j, dev) ∧
        Query.first (λ l, License.id l = Device.license_id dev) (licenses s)
          = Some (i, l)
  | _ => False
  end.

End Machine.

(** The clock reading a request compares [expires_at] with. *)
Definition expiry_check_time (r : request) : datetime :=
  match r with
  | Activate _ clk => activate_at_expiry_check clk
  | Validate _ clk => validate_at_expiry_check clk
  | _ => 0
  end.

(** The answer "License has expired" of either endpoint. *)
Definition reports_expired (r : response) : Prop :=
  r = ActivateResponse (ActivateError 400 "License has expired") ∨
  r = ValidateResponse
        (ValidateError 400 "License has expired" (Some "expired")).

(** The answer "License is not active" of either endpoint; [validate]
    adds the stored status. *)
Definition reports_not_active (status : string) (r : response) : Prop :=
  r = ActivateResponse (ActivateError 400 "License is not active") ∨
  r = ValidateResponse
        (ValidateError 400 "License is not active" (Some status)).

(** One license row, before and after some requests: the status moves
    from active to expired, from anything to revoked, or not at all. *)
Definition status_step (a b : string) : Prop :=
  a = b ∨ (a = "active" ∧ b = "expired") ∨ b = "revoked".

(** The part of it one request can do: the two endpoints expire, the
    revocation revokes, the creation touches no existing row. *)
Definition transition_of (r : request) (a b : string) : Prop :=
  match r with
  | Activate _ _ | Validate _ _ => a = b ∨ (a = "active" ∧ b = "expired")
  | CreateLicense _ _ _ => a = b
  | RevokeLicense _ _ _ => a = b ∨ b = "revoked"
  end.

Definition known_status (a : string) : Prop :=
  a = "active" ∨ a = "expired" ∨ a = "revoked".

Definition license_step (l l' : License.row) : Prop :=
  License.id l' = License.id l ∧ License.key l' = License.key l ∧
  License.expires_at l' = License.expires_at l ∧
  status_step (License.status l) (License.status l').

(** One device row, before and after: only [last_validated] moves. *)
Definition device_step (d d' : Device.row) : Prop :=
  d' = Device.set_last_validated (Device.last_validated d') d.

(** A table that only grows at its end, and whose rows change by [R]. *)
Definition evolves {A} (R : A → A → Prop) (old new : list A) : Prop :=
  ∀ i x, old !! i = Some x → ∃ y, new !! i = Some y ∧ R x y.

(** ** The rows the handlers insert *)

(** The Device and AuditLog rows of a first activation. *)
Definition registered (s : db) (d : string) (info : option json_value)
    (lic : License.row) (clk : activate_clock) : Device.row :=
  Device.Row (Query.next_id (Device.id <$> devices s)) d
    (json_text (default (JsonString "") info)) None
    (Some (activate_at_registered clk)) None true (License.id lic).

Definition activation_entry `{E : Sqlite.Engine} (s : db) (k d : string)
    (lic : License.row) (clk : activate_clock) : AuditLog.row :=
  AuditLog.Row (Query.next_id (AuditLog.id <$> audit_logs s))
    "license_activated"
    (Some ("Device " +:+ d +:+ " activated license " +:+ k))
    None None (Some (activate_at_audit clk)) (Some (License.id lic))
    (Some (Sqlite.integer_affinity d)) None.

(** The AuditLog row of a revocation. *)
Definition revocation_entry (s : db) (n : Z) (l : License.row)
    (clk : revoke_clock) : AuditLog.row :=
  AuditLog.Row (Query.next_id (AuditLog.id <$> audit_logs s))
    "license_revoked"
    (Some ("License " +:+ License.key l +:+ " revoked by admin"))
    None None (Some (revoke_at_audit clk)) (Some n) None None.

(** ** The statements under examination that the code does not satisfy

    Each is written as the specification words it; the properties section
    refutes it and proves what holds instead. *)

(** A clock reading at which a token can be issued: adding the validity
    window stays inside the datetime range. *)
Definition token_issuable (t : datetime) : Prop :=
  Datetime.MIN ≤ t + JWT_ACCESS_TOKEN_EXPIRES ≤ Datetime.MAX.

Section Stated.

Context `{B : PyJWT.Backend} `{E : Sqlite.Engine}.
Variable secret : string.

(** "The only transitions any operation performs are active to expired and
    active to revoked; once a license is expired or revoked, no operation
    changes its status again." *)
Definition transitions_as_stated : Prop :=
  ∀ s r i l l',
    reachable secret s →
    licenses s !! i = Some l →
    licenses (handle secret s r) !! i = Some l' →
    License.status l' ≠ License.status l →
    License.status l = "active" ∧
    (License.status l' = "expired" ∨ License.status l' = "revoked").

(** "A token issued for D at time T with window W verifies at any time
    strictly before T + W and fails with Expired at any time after T + W;
    a missing header fails with Missing and a malformed or wrongly signed
    token fails with Invalid." *)
Definition token_window_as_stated : Prop :=
  (∀ D lic T t token st ex,
     issue_token secret D lic T = Activated token st ex →
     (t < T + JWT_ACCESS_TOKEN_EXPIRES →
      jwt_required secret (Some ("Bearer " +:+ token)) t = Call D) ∧
     (T + JWT_ACCESS_TOKEN_EXPIRES < t →
      jwt_required secret (Some ("Bearer " +:+ token)) t
        = Reject 401 "Token has expired")) ∧
  (∀ t, jwt_required secret None t = Reject 401 "Token is missing") ∧
  (∀ h t,
     h ≠ "" → PyJWT.split (strip_bearer h) = None →
     jwt_required secret (Some h) t = Reject 401 "Token is invalid") ∧
  (∀ h t j,
     h ≠ "" → PyJWT.split (strip_bearer h) = Some j →
     PyJWT.signature j ≠ PyJWT.hmac_sha256 secret (PyJWT.signing_input j) →
     jwt_required secret (Some h) t = Reject 401 "Token is invalid").

(** "A successful first-time activation appends one AuditLog row whose
    device_id holds the caller-supplied device_id string; the entry does
    not reference the new Device row by its row id." *)
Definition activation_entry_as_stated : Prop :=
  ∀ s data d clk token st e s',
    device_id data = Some (JsonString d) →
    Query.first (λ x, Device.device_id x = d) (devices s) = None →
    activate_license secret s data clk = (Activated token st e, s') →
    ∃ dev entry,
      devices s' = devices s ++ [dev] ∧
      audit_logs s' = audit_logs s ++ [entry] ∧
      Device.device_id dev = d ∧
      AuditLog.action entry = "license_activated" ∧
      AuditLog.device_id entry = Some (Sqlite.Text d) ∧
      AuditLog.device_id entry ≠ Some (Sqlite.Integer (Device.id dev)).

End Stated.

(** "Revoking a license that is already revoked is a no-op success: status,
    revocation timestamp and revoker are unchanged and no audit entry is
    emitted." *)
Definition revoke_again_as_stated : Prop :=
  ∀ s admin n clk i l,
    Query.first (λ l, License.id l = n) (licenses s) = Some (i, l) →
    License.status l = "revoked" →
    (revoke_license (Some admin) s n clk).1
      = Flash "License revoked successfully" "success" ∧
    (∃ l', licenses (revoke_license (Some admin) s n clk).2 !! i = Some l' ∧
       License.status l' = License.status l ∧
       License.revoked_at l' = License.revoked_at l ∧
       License.revoked_by l' = License.revoked_by l) ∧
    audit_logs (revoke_license (Some admin) s n clk).2 = audit_logs s.

(** "With a fresh key and a negative duration, creation fails with a
    validation error and no row is created; with a duplicate key it fails
    with DuplicateKey; with a non-negative duration it creates the license,
    active, expiring at now plus that many days." *)
Definition create_as_stated : Prop :=
  ∀ admin s key d clk,
    key ≠ "" →
    let out :=
      create_license (Some admin) s (CreateForm (Some key) (FieldInt d)) clk in
    let found := Query.first (λ l, License.key l = key) (licenses s) in
    (is_Some found →
     out = (Flash "License key already exists" "error", s)) ∧
    (found = None → d < 0 →
     (∃ message, out.1 = Flash message "error") ∧ out.2 = s) ∧
    (found = None → 0 ≤ d →
     out.1 = Flash "License created successfully" "success" ∧
     ∃ l, licenses out.2 = licenses s ++ [l] ∧
       License.key l = key ∧ License.status l = "active" ∧
       License.expires_at l
         = Some (create_at_expires clk + d * Datetime.US_PER_DAY)).

(** ** Sample data *)

Module Sample.

Definition secret : string := "0f3c-sample-secret".

(** 2023-11-14T22:13:20 *)
Definition t0 : datetime := 1700000000 * Datetime.US_PER_SECOND.
Definition second : timedelta := Datetime.US_PER_SECOND.
Definition day : timedelta := Datetime.US_PER_DAY.

Definition create (key : string) (days : Z) (t : datetime) : request :=
  CreateLicense (Some 1) (CreateForm (Some key) (FieldInt days))
    (CreateClock t t).

Definition info : option json_value := Some (JsonString "Pixel 7").

Definition body (key dev : string) : activate_json :=
  ActivateJson (Some (JsonString key)) (Some (JsonString dev)) info.

Definition at_ (t : datetime) : activate_clock := ActivateClock t t t t.

Definition activate (key dev : string) (t : datetime) : request :=
  Activate (body key dev) (at_ t).

Definition revoke (admin n : Z) (t : datetime) : request :=
  RevokeLicense (Some admin) n (RevokeClock t t).

Definition serve : db → list request → db :=
  run (B := ReferenceBackend.backend) (E := ReferenceEngine.engine) secret.

(** Two licenses of seven days. *)
Definition two_licenses : db :=
  serve empty_db [create "KEY-A" 7 t0; create "KEY-B" 7 t0].

(** [dev1] activated on KEY-A one second later. *)
Definition dev1_on_A : db :=
  serve two_licenses [activate "KEY-A" "dev1" (t0 + second)].

(** A license created with duration zero, then looked at by an activation
    one second later: it is expired. *)
Definition expired_license : db :=
  serve empty_db [create "KEY-A" 0 t0; activate "KEY-A" "dev1" (t0 + second)].

(** A license revoked by admin 1 one hour after its creation. *)
Definition revoked_license : db :=
  serve empty_db [create "KEY-A" 7 t0; revoke 1 1 (t0 + 3600 * second)].

(** KEY-A of [two_licenses] expires seven days after [t0]. *)
Definition expiry_A : datetime := t0 + 7 * day.

Definition license_A : License.row :=
  License.Row 1 "KEY-A" "active" (Some expiry_A) (Some t0) None (Some 1) None.

Definition license_B : License.row :=
  License.Row 2 "KEY-B" "active" (Some expiry_A) (Some t0) None (Some 1) None.

Definition device_1 : Device.row :=
  Device.Row 1 "dev1" (Some "Pixel 7") None (Some (t0 + second)) None true 1.

(** The only row of [revoked_license]. *)
Definition license_A_revoked : License.row :=
  License.Row 1 "KEY-A" "revoked" (Some expiry_A) (Some t0)
    (Some (t0 + 3600 * second)) (Some 1) (Some 1).

(** A license created with duration zero and not looked at since: still
    active in the store, its expiration already reached. *)
Definition lapsing : db := serve empty_db [create "KEY-A" 0 t0].

Definition license_A_lapsing : License.row :=
  License.Row 1 "KEY-A" "active" (Some t0) (Some t0) None (Some 1) None.

(** The only row of [expired_license]. *)
Definition license_A_expired : License.row :=
  License.Row 1 "KEY-A" "expired" (Some t0) (Some t0) None (Some 1) None.

(** A token issued half a second past a whole second. *)
Definition half_second_token : string :=
  PyJWT.encode (B := ReferenceBackend.backend) "dev1" 1
    (t0 + 500000 + JWT_ACCESS_TOKEN_EXPIRES) secret.

(** A validation during which the license expires: the token is decoded
    5 ms before the deadline, the expiry check reads the clock 2 ms before
    it, last_validated is stamped 1 ms before it, and after the commit
    days_remaining is computed 3 ms past it. *)
Definition straddling : validate_clock :=
  ValidateClock (expiry_A - 5000) (expiry_A - 2000) (expiry_A - 1000)
    (expiry_A + 3000).

(** The token [dev1] obtains by activating again one hour before the
    deadline. *)
Definition late_token : string :=
  PyJWT.encode (B := ReferenceBackend.backend) "dev1" 1
    (expiry_A - 3600 * second + JWT_ACCESS_TOKEN_EXPIRES) secret.

End Sample.

(** ** The device list of the admin console

    [Device.query.join(License).all()] of [admin_devices]: the Device rows
    that have a License row under their [license_id]; the ORM returns each
    entity once.  The order of the rows is the engine's, so what is proved
    of this list is proved up to a permutation. *)
Definition admin_devices (s : db) : list Device.row :=
  filter
    (λ d, Exists (λ l, License.id l = Device.license_id d) (licenses s))
    (devices s).

(** ** What a request can write

    The writes of the four handlers, each under the condition the handler
    tests before it commits. *)
Inductive effect `{E : Sqlite.Engine} (s : db) : db → Prop :=
| effect_none :
    effect s s
| effect_expire i l :
    licenses s !! i = Some l →
    License.status l = "active" →
    effect s
      (set_licenses (<[i := License.set_status "expired" l]> (licenses s)) s)
| effect_touch j d t :
    devices s !! j = Some d →
    effect s
      (set_devices (<[j := Device.set_last_validated (Some t) d]> (devices s)) s)
| effect_register i lic k d info clk :
    licenses s !! i = Some lic →
    License.key lic = k →
    License.status lic = "active" →
    Query.first (λ x, Device.device_id x = d) (devices s) = None →
    effect s
      (Db (licenses s) (devices s ++ [registered s d info lic clk])
          (audit_logs s ++ [activation_entry s k d lic clk]))
| effect_create admin key e t :
    key ≠ "" →
    Query.first (λ l, License.key l = key) (licenses s) = None →
    effect s
      (set_licenses
         (licenses s ++
          [License.Row (Query.next_id (License.id <$> licenses s)) key "active"
             (Some e) (Some t) None (Some admin) None]) s)
| effect_revoke i l admin n clk :
    licenses s !! i = Some l →
    License.id l = n →
    effect s
      (Db (<[i := License.set_revoked_by (Some admin)
                   (License.set_revoked_at (Some (revoke_at_revoked clk))
                      (License.set_status "revoked" l))]> (licenses s))
          (devices s)
          (audit_logs s ++ [revocation_entry s n l clk])).

(** ** The shape of a reachable store *)

(** Primary keys handed out one after the other, from 1. *)
Definition consecutive (ids : list Z) : Prop :=
  ids = seqZ 1 (Z.of_nat (length ids)).

(** A license carries a revocation stamp exactly when it is revoked. *)
Definition stamped (l : License.row) : Prop :=
  (License.status l = "revoked" ∧
   is_Some (License.revoked_at l) ∧ is_Some (License.revoked_by l)) ∨
  (License.status l ≠ "revoked" ∧
   License.revoked_at l = None ∧ License.revoked_by l = None).

(** A license row, before and after: what no request touches. *)
Definition same_license (l l' : License.row) : Prop :=
  License.id l' = License.id l ∧ License.key l' = License.key l ∧
  License.expires_at l' = License.expires_at l ∧
  License.created_at l' = License.created_at l ∧
  License.created_by l' = License.created_by l.

(** The audit entries written by activations. *)
Definition activation_entries (s : db) : list AuditLog.row :=
  filter (λ a, AuditLog.action a = "license_activated") (audit_logs s).

(** What every row a handler inserts looks like. *)
Definition license_shape (l : License.row) : Prop :=
  License.key l ≠ "" ∧ is_Some (License.expires_at l) ∧
  is_Some (License.created_at l) ∧ is_Some (License.created_by l).

Definition device_shape (d : Device.row) : Prop :=
  Device.is_active d = true ∧ Device.fcm_token d = None ∧
  is_Some (Device.registered_at d).

Definition audit_shape (a : AuditLog.row) : Prop :=
  AuditLog.admin_user_id a = None ∧ AuditLog.ip_address a = None ∧
  AuditLog.user_agent a = None ∧ is_Some (AuditLog.created_at a) ∧
  is_Some (AuditLog.license_id a) ∧ is_Some (AuditLog.details a) ∧
  ((AuditLog.action a = "license_activated" ∧
    is_Some (AuditLog.device_id a)) ∨
   (AuditLog.action a = "license_revoked" ∧ AuditLog.device_id a = None)).

(** ** More sample data *)

Module Scenario.

(** The token of the activation that leads from [Sample.two_licenses] to
    [Sample.dev1_on_A]. *)
Definition first_token : string :=
  PyJWT.encode (B := ReferenceBackend.backend) "dev1" 1
    (Sample.t0 + Sample.second + JWT_ACCESS_TOKEN_EXPIRES) Sample.secret.

(** A validation one hour after [Sample.t0]. *)
Definition hour_later : validate_clock :=
  let t := Sample.t0 + 3600 * Sample.second in ValidateClock t t t t.

(** A payload without user_id, signed with the server's secret. *)
Definition no_subject : PyJWT.claims := PyJWT.Claims None (Some 1) None.

Definition no_subject_token : string :=
  PyJWT.join (Backend := ReferenceBackend.backend)
    (PyJWT.segments (Backend := ReferenceBackend.backend) no_subject)
    (PyJWT.hmac_sha256 (Backend := ReferenceBackend.backend) Sample.secret
       (PyJWT.segments (Backend := ReferenceBackend.backend) no_subject)).

Definition other_secret : string := "7a91-rotated-secret".

(** [dev2] activated on KEY-A as well, then KEY-B revoked. *)
Definition revoke_B : revoke_clock :=
  RevokeClock (Sample.t0 + 60 * Sample.second) (Sample.t0 + 60 * Sample.second).

(** [dev2] activated on KEY-B two seconds after [Sample.t0]. *)
Definition two_devices : db :=
  Sample.serve Sample.dev1_on_A
    [Sample.activate "KEY-B" "dev2" (Sample.t0 + 2 * Sample.second)].

Definition device_2 : Device.row :=
  Device.Row 2 "dev2" (Some "Pixel 7") None
    (Some (Sample.t0 + 2 * Sample.second)) None true 2.

(** Requests that follow: KEY-A is revoked, then [dev1] tries again. *)
Definition aftermath : list request :=
  [Sample.revoke 1 1 (Sample.t0 + 60 * Sample.second);
   Sample.activate "KEY-A" "dev1" (Sample.t0 + 120 * Sample.second)].

(** A device whose identifier is written in digits, activated on KEY-B
    after [dev1] on KEY-A. *)
Definition numbered : db :=
  Sample.serve Sample.dev1_on_A
    [Sample.activate "KEY-B" "007" (Sample.t0 + 2 * Sample.second)].

(** A device whose identifier is the text of a number, activated on KEY-A
    of [Sample.two_licenses]: it is the first Device row. *)
Definition numeric_device : db :=
  Sample.serve Sample.two_licenses
    [Sample.activate "KEY-A" "1" (Sample.t0 + Sample.second)].

(** The token of that activation. *)
Definition numeric_token : string :=
  PyJWT.encode (B := ReferenceBackend.backend) "1" 1
    (Sample.t0 + Sample.second + JWT_ACCESS_TOKEN_EXPIRES) Sample.secret.

End Scenario.

(** * Properties *)

(** ** Tables that evolve row by row *)

Section Evolves.

Context {A : Type} (R : A → A → Prop).
Hypothesis R_refl : ∀ x, R x x.
Hypothesis R_trans : ∀ x y z, R x y → R y z → R x z.

Lemma evolves_refl (l : list A) : evolves R l l.
Proof. intros i x Hx. eauto. Qed.

Lemma evolves_trans (l1 l2 l3 : list A) :
  evolves R l1 l2 → evolves R l2 l3 → evolves R l1 l3.
Proof.
  intros H12 H23 i x Hx.
  destruct (H12 i x Hx) as (y & Hy & Hxy).
  destruct (H23 i y Hy) as (z & Hz & Hyz).
  eauto.
Qed.

Lemma evolves_app (l extra : list A) : evolves R l (l ++ extra).
Proof.
  intros i x Hx. exists x. split; [|done].
  by apply lookup_app_l_Some.
Qed.

Lemma evolves_insert (l : list A) (i : nat) (x y : A) :
  l !! i = Some x → R x y → evolves R l (<[i := y]> l).
Proof.
  intros Hi Hxy j z Hj.
  destruct (decide (i = j)) as [->|Hne].
  - exists y. split.
    + apply list_lookup_insert_eq. by eapply lookup_lt_Some.
    + congruence.
  - exists z. split; [|done]. by rewrite list_lookup_insert_ne.
Qed.

(** A first match stays the first match, at the same position, as long as
    the rows keep what the filter looks at. *)
Lemma first_evolves (P : A → Prop) `{∀ x, Decision (P x)}
    (old new : list A) (i : nat) (x : A) :
  (∀ a b, R a b → P a ↔ P b) →
  evolves R old new →
  Query.first P old = Some (i, x) →
  ∃ y, Query.first P new = Some (i, y) ∧ R x y.
Proof.
  unfold Query.first. intros HP Hev Hfind.
  apply list_find_Some in Hfind as (Hi & HPx & Hbefore).
  destruct (Hev i x Hi) as (y & Hy & Hxy).
  exists y. split; [|done].
  apply list_find_Some. split_and!; [done|by apply (HP x y)|].
  intros j z Hz Hlt Pz.
  destruct (old !! j) as [w|] eqn:Hw.
  - destruct (Hev j w Hw) as (z' & Hz' & Hwz). simplify_eq.
    apply (Hbefore j w Hw Hlt). by apply (HP w z).
  - apply lookup_ge_None in Hw. apply lookup_lt_Some in Hi. lia.
Qed.

(** A filter with no match in the old table finds its first match, if
    any, among the rows added since. *)
Lemma first_evolves_None (P : A → Prop) `{∀ x, Decision (P x)}
    (old new : list A) (j : nat) (y : A) :
  (∀ a b, R a b → P a ↔ P b) →
  evolves R old new →
  Query.first P old = None →
  Query.first P new = Some (j, y) →
  (length old ≤ j)%nat.
Proof.
  unfold Query.first. intros HP Hev Hnone Hfind.
  apply list_find_Some in Hfind as (Hj & HPy & _).
  destruct (decide (length old ≤ j)%nat) as [|Hlt]; [done|].
  destruct (lookup_lt_is_Some_2 old j) as [x Hx]; [lia|].
  destruct (Hev j x Hx) as (y' & Hy' & Hxy). simplify_eq.
  rewrite list_find_None, Forall_lookup in Hnone.
  exfalso. apply (Hnone j x Hx). by apply (HP x y).
Qed.

End Evolves.

(** A row appended to a table without a match is the first match. *)
Lemma first_appended {A} (P : A → Prop) `{∀ x, Decision (P x)}
    (table : list A) (x : A) :
  Query.first P table = None → P x →
  Query.first P (table ++ [x]) = Some (length table, x).
Proof.
  unfold Query.first. intros Hnone HP.
  rewrite list_find_app_r by done. simpl.
  by rewrite decide_True.
Qed.

Lemma status_step_refl a : status_step a a.
Proof. by left. Qed.

Lemma status_step_trans a b c :
  status_step a b → status_step b c → status_step a c.
Proof. unfold status_step. intros [->|[[-> ->]| ->]] [<-|[[? ->]| ->]]; naive_solver. Qed.

Lemma status_step_not_active a b :
  status_step a b → a ≠ "active" → b ≠ "active".
Proof. unfold status_step. intros [->|[[-> ->]| ->]] Ha; done. Qed.

Lemma status_step_revoked b : status_step "revoked" b → b = "revoked".
Proof. unfold status_step. intros [<-|[[? ->]| ->]]; done. Qed.

Lemma status_step_expired b :
  status_step "expired" b → b = "expired" ∨ b = "revoked".
Proof. unfold status_step. intros [<-|[[? ->]| ->]]; auto; done. Qed.

Lemma license_step_refl l : license_step l l.
Proof. unfold license_step. auto using status_step_refl. Qed.

Lemma license_step_trans l1 l2 l3 :
  license_step l1 l2 → license_step l2 l3 → license_step l1 l3.
Proof.
  unfold license_step. intros (?&?&?&?) (?&?&?&?).
  split_and!; try congruence. eauto using status_step_trans.
Qed.

Lemma device_step_refl d : device_step d d.
Proof. by destruct d. Qed.

Lemma device_step_trans d1 d2 d3 :
  device_step d1 d2 → device_step d2 d3 → device_step d1 d3.
Proof. unfold device_step. intros -> ->. by destruct d1. Qed.

Create HintDb store.

#[local] Hint Resolve license_step_refl license_step_trans
  device_step_refl device_step_trans status_step_refl : store.

(** ** What one request does to the tables *)

Lemma first_lookup {A} (P : A → Prop) `{∀ x, Decision (P x)}
    (table : list A) (i : nat) (x : A) :
  Query.first P table = Some (i, x) → table !! i = Some x ∧ P x.
Proof. unfold Query.first. rewrite list_find_Some. by intros (? & ? & _). Qed.

Lemma not_not_active (st : string) : ¬ st ≠ "active" → st = "active".
Proof. intros Hn. by destruct (decide (st = "active")). Qed.

Lemma expire_step (l : License.row) :
  License.status l = "active" →
  license_step l (License.set_status "expired" l).
Proof.
  intros Hl. unfold license_step, status_step. simpl.
  split_and!; try done. right; left. done.
Qed.

Lemma revoke_step (l : License.row) (at_ : option datetime) (by_ : option Z) :
  license_step l
    (License.set_revoked_by by_
       (License.set_revoked_at at_ (License.set_status "revoked" l))).
Proof. unfold license_step, status_step. simpl. split_and!; auto. Qed.

Lemma touch_step (d : Device.row) (t : option datetime) :
  device_step d (Device.set_last_validated t d).
Proof. by destruct d. Qed.

Ltac table_refl := intros; simpl; auto with store.

Ltac table_step :=
  match goal with
  | |- evolves _ ?l ?l => apply evolves_refl; table_refl
  | |- evolves _ ?l (?l ++ _) => apply evolves_app; table_refl
  | H : Query.first _ ?l = Some (?i, ?row) |- evolves ?R ?l (<[?i := _]> ?l) =>
      apply (evolves_insert R ltac:(table_refl) l i row);
      [exact (proj1 (first_lookup _ _ _ _ H)) | ]
  end.

Section Effects.

Context `{B : PyJWT.Backend} `{E : Sqlite.Engine}.
Variable secret : string.

Lemma activate_licenses s data clk :
  evolves license_step (licenses s) (licenses (activate_license secret s data clk).2).
Proof.
  unfold activate_license.
  repeat case_match; unfold set_licenses, set_devices; simpl; table_step.
  apply expire_step. by apply not_not_active.
Qed.

Lemma validate_license_licenses u s clk :
  evolves license_step (licenses s) (licenses (validate_license u s clk).2).
Proof.
  unfold validate_license.
  repeat case_match; unfold set_licenses, set_devices; simpl; table_step.
  apply expire_step. by apply not_not_active.
Qed.

Lemma create_licenses cu s form clk :
  evolves license_step (licenses s) (licenses (create_license cu s form clk).2).
Proof.
  unfold create_license, login_required.
  repeat case_match; unfold set_licenses, set_devices; simpl; table_step.
Qed.

Lemma revoke_licenses cu s lid clk :
  evolves license_step (licenses s) (licenses (revoke_license cu s lid clk).2).
Proof.
  unfold revoke_license, login_required.
  repeat case_match; unfold set_licenses, set_devices; simpl; table_step.
  apply revoke_step.
Qed.

Lemma handle_licenses s r :
  evolves license_step (licenses s) (licenses (handle secret s r)).
Proof.
  unfold handle, respond. destruct r; simpl.
  - apply activate_licenses.
  - unfold validate. case_match; simpl.
    + apply validate_license_licenses.
    + table_step.
  - apply create_licenses.
  - apply revoke_licenses.
Qed.

Lemma run_licenses rs s :
  evolves license_step (licenses s) (licenses (run secret s rs)).
Proof.
  revert s. induction rs as [|r rs IH]; intros s; simpl.
  - table_step.
  - eapply evolves_trans; [apply license_step_trans| |apply IH].
    apply handle_licenses.
Qed.

Lemma handle_devices s r :
  evolves device_step (devices s) (devices (handle secret s r)).
Proof.
  unfold handle, respond.
  destruct r; simpl;
    unfold activate_license, validate, validate_license, create_license,
      revoke_license, login_required;
    repeat case_match; unfold set_licenses, set_devices; simpl; table_step.
  all: apply touch_step.
Qed.

Lemma run_devices rs s :
  evolves device_step (devices s) (devices (run secret s rs)).
Proof.
  revert s. induction rs as [|r rs IH]; intros s; simpl.
  - table_step.
  - eapply evolves_trans; [apply device_step_trans| |apply IH].
    apply handle_devices.
Qed.

(** The row a lookup by key or by primary key resolves to keeps its
    position for ever. *)
Lemma run_first_key rs s k i l :
  Query.first (λ l, License.key l = k) (licenses s) = Some (i, l) →
  ∃ l', Query.first (λ l, License.key l = k) (licenses (run secret s rs)) = Some (i, l')
        ∧ license_step l l'.
Proof.
  apply first_evolves; [|apply run_licenses].
  intros a b (_ & Hk & _). by rewrite Hk.
Qed.

Lemma run_first_id rs s n i l :
  Query.first (λ l, License.id l = n) (licenses s) = Some (i, l) →
  ∃ l', Query.first (λ l, License.id l = n) (licenses (run secret s rs)) = Some (i, l')
        ∧ license_step l l'.
Proof.
  apply first_evolves; [|apply run_licenses].
  intros a b (Hid & _). by rewrite Hid.
Qed.

End Effects.

(** ** Tokens *)

Lemma add_issuable (t : datetime) :
  token_issuable t →
  Datetime.add t JWT_ACCESS_TOKEN_EXPIRES = Some (t + JWT_ACCESS_TOKEN_EXPIRES).
Proof. intros Ht. unfold Datetime.add. by rewrite decide_True. Qed.

Lemma strip_bearer_prefixed (tok : string) :
  strip_bearer ("Bearer " +:+ tok) = tok.
Proof. unfold strip_bearer, startswith. by destruct tok. Qed.

(** Whole seconds, in microseconds, bracket the instant they are cut from. *)
Lemma timegm_bounds (t : datetime) :
  Datetime.timegm t * Datetime.US_PER_SECOND ≤ t
    < (Datetime.timegm t + 1) * Datetime.US_PER_SECOND.
Proof.
  unfold Datetime.timegm, Datetime.US_PER_SECOND.
  pose proof (Z.div_mod t 1000000 ltac:(lia)).
  pose proof (Z.mod_pos_bound t 1000000 ltac:(lia)). lia.
Qed.

Section Tokens.

Context `{B : PyJWT.Backend} `{E : Sqlite.Engine}.
Variable secret : string.

Lemma decode_encode (u : string) (n : Z) (e now : datetime) :
  PyJWT.decode (PyJWT.encode u n e secret) secret now =
    if PyJWT.expired (Datetime.timegm e) now
    then PyJWT.ExpiredSignatureError
    else PyJWT.Payload
           (PyJWT.Claims (Some u) (Some n) (Some (Datetime.timegm e))).
Proof.
  unfold PyJWT.decode, PyJWT.encode. rewrite PyJWT.split_join. simpl.
  by rewrite decide_True.
Qed.

Lemma jwt_required_bearer (tok : string) (now : datetime) :
  jwt_required secret (Some ("Bearer " +:+ tok)) now =
    match PyJWT.decode tok secret now with
    | PyJWT.Payload data =>
        match PyJWT.user_id data with
        | Some u => Call u
        | None => Reject 500 "Internal server error"
        end
    | PyJWT.ExpiredSignatureError => Reject 401 "Token has expired"
    | PyJWT.InvalidTokenError => Reject 401 "Token is invalid"
    end.
Proof. unfold jwt_required. by rewrite strip_bearer_prefixed. Qed.

(** Before the whole second of its [exp] no release rejects the token. *)
Lemma not_expired_before (e : Z) (now : datetime) :
  now < e * Datetime.US_PER_SECOND → PyJWT.expired e now = false.
Proof.
  intros Hlt. unfold PyJWT.expired.
  pose proof (timegm_bounds now).
  repeat case_match; apply bool_decide_eq_false; lia.
Qed.

(** One second later every release rejects it. *)
Lemma expired_after (e : Z) (now : datetime) :
  (e + 1) * Datetime.US_PER_SECOND ≤ now → PyJWT.expired e now = true.
Proof.
  intros Hle. unfold PyJWT.expired.
  pose proof (timegm_bounds now).
  assert (e + 1 ≤ Datetime.timegm now).
  { unfold Datetime.timegm. apply Z.div_le_lower_bound;
      unfold Datetime.US_PER_SECOND in *; lia. }
  repeat case_match; apply bool_decide_eq_true; nia.
Qed.

Lemma issued_token_accepted (D : string) (n : Z) (e now : datetime) :
  now < Datetime.timegm e * Datetime.US_PER_SECOND →
  jwt_required secret (Some ("Bearer " +:+ PyJWT.encode D n e secret)) now
    = Call D.
Proof.
  intros Hlt. rewrite jwt_required_bearer, decode_encode.
  by rewrite not_expired_before.
Qed.

Lemma issued_token_expired (D : string) (n : Z) (e now : datetime) :
  (Datetime.timegm e + 1) * Datetime.US_PER_SECOND ≤ now →
  jwt_required secret (Some ("Bearer " +:+ PyJWT.encode D n e secret)) now
    = Reject 401 "Token has expired".
Proof.
  intros Hle. rewrite jwt_required_bearer, decode_encode.
  by rewrite expired_after.
Qed.

(** The window is a whole number of seconds, so a token is accepted at the
    instant it is issued, and for the 24 hours less one second after. *)
Lemma timegm_window (t : datetime) :
  Datetime.timegm (t + JWT_ACCESS_TOKEN_EXPIRES) = Datetime.timegm t + 86400.
Proof.
  unfold Datetime.timegm, JWT_ACCESS_TOKEN_EXPIRES, Datetime.timedelta_hours,
    Datetime.US_PER_SECOND.
  replace (t + 24 * 3600 * 1000000) with (t + 86400 * 1000000) by lia.
  by rewrite Z.div_add.
Qed.

Lemma fresh_token_accepted (D : string) (n : Z) (t : datetime) :
  jwt_required secret
    (Some ("Bearer " +:+
           PyJWT.encode D n (t + JWT_ACCESS_TOKEN_EXPIRES) secret)) t
    = Call D.
Proof.
  apply issued_token_accepted. rewrite timegm_window.
  pose proof (timegm_bounds t). unfold Datetime.US_PER_SECOND in *. lia.
Qed.

End Tokens.

(** ** Activation *)

Section Activation.

Context `{B : PyJWT.Backend} `{E : Sqlite.Engine}.
Variable secret : string.

Lemma activate_first_time s k d info clk i lic :
  Query.first (λ l, License.key l = k) (licenses s) = Some (i, lic) →
  License.status lic = "active" →
  expires_before lic (activate_at_expiry_check clk) = false →
  Query.first (λ x, Device.device_id x = d) (devices s) = None →
  activate_license secret s
    (ActivateJson (Some (JsonString k)) (Some (JsonString d)) info) clk =
    (issue_token secret d lic (activate_at_token clk),
     Db (licenses s) (devices s ++ [registered s d info lic clk])
        (audit_logs s ++ [activation_entry s k d lic clk])).
Proof.
  intros Hlic Hst Hexp Hdev. unfold activate_license. simpl.
  rewrite Hlic, Hexp, Hdev. by rewrite decide_False by (by rewrite Hst; intros []).
Qed.

Lemma activate_again s k d info clk i lic j dev :
  Query.first (λ l, License.key l = k) (licenses s) = Some (i, lic) →
  License.status lic = "active" →
  expires_before lic (activate_at_expiry_check clk) = false →
  Query.first (λ x, Device.device_id x = d) (devices s) = Some (j, dev) →
  Device.license_id dev = License.id lic →
  activate_license secret s
    (ActivateJson (Some (JsonString k)) (Some (JsonString d)) info) clk =
    (issue_token secret d lic (activate_at_token clk), s).
Proof.
  intros Hlic Hst Hexp Hdev Hbound. unfold activate_license. simpl.
  rewrite Hlic, Hexp, Hdev.
  rewrite decide_False by (by rewrite Hst; intros []).
  by rewrite decide_True.
Qed.

Lemma issue_token_issuable d lic t :
  token_issuable t →
  issue_token secret d lic t =
    Activated
      (PyJWT.encode d (License.id lic) (t + JWT_ACCESS_TOKEN_EXPIRES) secret)
      (License.status lic) (License.expires_at lic).
Proof. intros Ht. unfold issue_token. by rewrite add_issuable. Qed.

(** An unknown key is answered "Invalid license key" whatever the device,
    and nothing is written. *)
Lemma activate_unknown_key s k d info clk :
  Query.first (λ l, License.key l = k) (licenses s) = None →
  activate_license secret s
    (ActivateJson (Some (JsonString k)) (Some (JsonString d)) info) clk =
    (ActivateError 404 "Invalid license key", s).
Proof. intros Hnone. unfold activate_license. simpl. by rewrite Hnone. Qed.

(** C1. Two activations of the same (license_key, device_id) pair on a
    license that is active and unexpired at both calls, the device not yet
    registered: both succeed with a token for the device (each accepted
    when presented at its issue time), the first inserts one Device row and
    one AuditLog row, and the second leaves the store exactly as the first
    left it. *)
Theorem activate_twice s k d info info' clk1 clk2 i lic :
  Query.first (λ l, License.key l = k) (licenses s) = Some (i, lic) →
  License.status lic = "active" →
  expires_before lic (activate_at_expiry_check clk1) = false →
  expires_before lic (activate_at_expiry_check clk2) = false →
  Query.first (λ x, Device.device_id x = d) (devices s) = None →
  token_issuable (activate_at_token clk1) →
  token_issuable (activate_at_token clk2) →
  ∃ dev entry token1 token2,
    let s1 := Db (licenses s) (devices s ++ [dev]) (audit_logs s ++ [entry]) in
    activate_license secret s
      (ActivateJson (Some (JsonString k)) (Some (JsonString d)) info) clk1 =
      (Activated token1 "active" (License.expires_at lic), s1) ∧
    activate_license secret s1
      (ActivateJson (Some (JsonString k)) (Some (JsonString d)) info') clk2 =
      (Activated token2 "active" (License.expires_at lic), s1) ∧
    Device.device_id dev = d ∧
    Device.license_id dev = License.id lic ∧
    jwt_required secret (Some ("Bearer " +:+ token1)) (activate_at_token clk1)
      = Call d ∧
    jwt_required secret (Some ("Bearer " +:+ token2)) (activate_at_token clk2)
      = Call d.
Proof.
  intros Hlic Hst Hexp1 Hexp2 Hdev Ht1 Ht2.
  exists (registered s d info lic clk1), (activation_entry s k d lic clk1).
  eexists _, _. simpl. split_and!.
  - rewrite (activate_first_time _ _ _ _ _ i lic) by done.
    by rewrite issue_token_issuable, Hst.
  - rewrite (activate_again _ _ _ _ _ i lic (length (devices s))
               (registered s d info lic clk1)); try done.
    + by rewrite issue_token_issuable, Hst.
    + by apply first_appended.
  - done.
  - done.
  - apply fresh_token_accepted.
  - apply fresh_token_accepted.
Qed.

(** C4. A device already bound to one license, activated against another
    license that is active and unexpired: the call fails with "Device
    already registered with different license" and the store, the device's
    binding included, is unchanged. *)
Theorem activate_conflict s k d info clk i lic j dev :
  Query.first (λ l, License.key l = k) (licenses s) = Some (i, lic) →
  License.status lic = "active" →
  expires_before lic (activate_at_expiry_check clk) = false →
  Query.first (λ x, Device.device_id x = d) (devices s) = Some (j, dev) →
  Device.license_id dev ≠ License.id lic →
  activate_license secret s
    (ActivateJson (Some (JsonString k)) (Some (JsonString d)) info) clk =
    (ActivateError 400 "Device already registered with different license", s).
Proof.
  intros Hlic Hst Hexp Hdev Hbound. unfold activate_license. simpl.
  rewrite Hlic, Hexp, Hdev.
  rewrite decide_False by (by rewrite Hst; intros []).
  by rewrite decide_False.
Qed.

(** What a successful activation of an unregistered device wrote. *)
Lemma activate_registered s data d clk token st e s' :
  device_id data = Some (JsonString d) →
  Query.first (λ x, Device.device_id x = d) (devices s) = None →
  activate_license secret s data clk = (Activated token st e, s') →
  ∃ k i lic,
    license_key data = Some (JsonString k) ∧
    Query.first (λ l, License.key l = k) (licenses s) = Some (i, lic) ∧
    s' = Db (licenses s)
           (devices s ++ [registered s d (device_info data) lic clk])
           (audit_logs s ++ [activation_entry s k d lic clk]).
Proof.
  intros Hd Hdev. unfold activate_license. rewrite Hd.
  destruct (license_key data) as [[|k]|]; [done| |done].
  destruct (Query.first _ (licenses s)) as [[i lic]|] eqn:Hlic; [|done].
  destruct (decide _); [done|].
  destruct (expires_before _ _); [done|].
  rewrite Hdev. intros [= Htok <-]. by exists k, i, lic.
Qed.

(** On every engine the device "1", activated first, is logged under the
    integer 1 and not under its device_id string. *)
Lemma activation_entry_never_as_stated : ¬ activation_entry_as_stated secret.
Proof.
  intros H.
  set (s := Db [Sample.license_A] [] []).
  set (clk := Sample.at_ (Sample.t0 + Sample.second)).
  destruct (H s (Sample.body "KEY-A" "1") "1" clk
              (PyJWT.encode "1" 1
                 (activate_at_token clk + JWT_ACCESS_TOKEN_EXPIRES) secret)
              "active" (Some Sample.expiry_A)
              (Db [Sample.license_A]
                  [registered s "1" Sample.info
                     Sample.license_A clk]
                  [activation_entry s "KEY-A" "1" Sample.license_A clk]))
    as (dev & entry & _ & Hlogs & _ & _ & Htext & _).
  - done.
  - done.
  - unfold Sample.body.
    rewrite (activate_first_time s "KEY-A" "1" _ clk 0%nat Sample.license_A)
      by (vm_compute; reflexivity).
    rewrite issue_token_issuable by (vm_compute; split; discriminate).
    done.
  - simpl in Hlogs. injection Hlogs as <-. simpl in Htext.
    rewrite (Sqlite.integer_affinity_decimal "1" 1) in Htext; [done|done|].
    vm_compute; discriminate.
Qed.

(** C9. A successful activation of a device that was not registered
    appends one Device row and one AuditLog row.  The AuditLog row's
    device_id holds what the INTEGER column keeps of the caller's device_id
    string: the string itself when it has a character no number is written
    with, and then it is not the primary key of the new Device row; the
    integer when the string is a decimal integer of at most 64 bits, and
    then it is the primary key of the new Device row exactly when that
    integer is the next key of the devices table. *)
Theorem activation_entry_device_id s data d clk token st e s' :
  device_id data = Some (JsonString d) →
  Query.first (λ x, Device.device_id x = d) (devices s) = None →
  activate_license secret s data clk = (Activated token st e, s') →
  ∃ dev entry,
    devices s' = devices s ++ [dev] ∧
    audit_logs s' = audit_logs s ++ [entry] ∧
    Device.device_id dev = d ∧
    Device.id dev = Query.next_id (Device.id <$> devices s) ∧
    AuditLog.action entry = "license_activated" ∧
    AuditLog.device_id entry = Some (Sqlite.integer_affinity d) ∧
    (Sqlite.numeric_chars d = false →
     AuditLog.device_id entry = Some (Sqlite.Text d) ∧
     AuditLog.device_id entry ≠ Some (Sqlite.Integer (Device.id dev))) ∧
    (∀ z, Sqlite.decimal d = Some z → z ≤ Sqlite.INT64_MAX →
     AuditLog.device_id entry = Some (Sqlite.Integer z) ∧
     (AuditLog.device_id entry = Some (Sqlite.Integer (Device.id dev))
      ↔ z = Device.id dev)).
Proof.
  intros Hd Hdev Hout.
  destruct (activate_registered _ _ _ _ _ _ _ _ Hd Hdev Hout)
    as (k & i & lic & _ & _ & ->).
  exists (registered s d (device_info data) lic clk),
         (activation_entry s k d lic clk).
  simpl. split_and!; try done.
  - intros Htext. rewrite Sqlite.integer_affinity_text by done. by split.
  - intros z Hz Hmax. rewrite (Sqlite.integer_affinity_decimal d z) by done.
    split; [done|]. split; [by intros [= ->]|by intros ->].
Qed.

End Activation.

(** C9, as stated, fails: the device "1", the first to be activated on
    [Sample.two_licenses], is logged under the integer 1, which is the
    primary key of its Device row; and no engine keeps the string in
    every case. *)
Lemma numeric_device_id_logged_as_integer :
  (∃ dev entry,
     devices Scenario.numeric_device = devices Sample.two_licenses ++ [dev] ∧
     audit_logs Scenario.numeric_device
       = audit_logs Sample.two_licenses ++ [entry] ∧
     Device.device_id dev = "1" ∧
     AuditLog.device_id entry ≠ Some (Sqlite.Text "1") ∧
     AuditLog.device_id entry = Some (Sqlite.Integer (Device.id dev))) ∧
  ¬ ∃ (B : PyJWT.Backend) (E : Sqlite.Engine) (secret : string),
      activation_entry_as_stated (B := B) (E := E) secret.
Proof.
  split.
  - exists (Device.Row 1 "1" (Some "Pixel 7") None
              (Some (Sample.t0 + Sample.second)) None true 1).
    exists (activation_entry (E := ReferenceEngine.engine)
              Sample.two_licenses "KEY-A" "1" Sample.license_A
              (Sample.at_ (Sample.t0 + Sample.second))).
    split; [vm_compute; reflexivity|].
    split; [vm_compute; reflexivity|].
    split; [vm_compute; reflexivity|].
    split; [vm_compute; discriminate|vm_compute; reflexivity].
  - intros (B & E & secret & H).
    by apply (activation_entry_never_as_stated secret).
Qed.

(** ** Administration *)

Lemma revoke_found admin s n clk i l :
  Query.first (λ l, License.id l = n) (licenses s) = Some (i, l) →
  revoke_license (Some admin) s n clk =
    (Flash "License revoked successfully" "success",
     Db (<[i := License.set_revoked_by (Some admin)
                  (License.set_revoked_at (Some (revoke_at_revoked clk))
                     (License.set_status "revoked" l))]> (licenses s))
        (devices s)
        (audit_logs s ++ [revocation_entry s n l clk])).
Proof. intros Hl. unfold revoke_license, login_required. by rewrite Hl. Qed.

(** C6, as the code has it.  Revoking a license that is already revoked
    succeeds and keeps the status, but it is not a no-op: the revocation
    timestamp is overwritten with the current time, the revoker with the
    current admin, and one more license_revoked audit entry is appended. *)
Theorem revoke_again admin s n clk i l :
  Query.first (λ l, License.id l = n) (licenses s) = Some (i, l) →
  License.status l = "revoked" →
  revoke_license (Some admin) s n clk =
    (Flash "License revoked successfully" "success",
     Db (<[i := License.set_revoked_by (Some admin)
                  (License.set_revoked_at (Some (revoke_at_revoked clk)) l)]>
           (licenses s))
        (devices s)
        (audit_logs s ++ [revocation_entry s n l clk])).
Proof.
  intros Hl Hst. rewrite (revoke_found _ _ _ _ i l) by done.
  replace (License.set_status "revoked" l) with l; [done|].
  destruct l. simpl in *. by subst.
Qed.

(** C6, as stated, fails: admin 2 revokes, two hours after its creation, a
    license that admin 1 revoked one hour after; the revoker becomes 2,
    the timestamp moves and a second audit entry appears. *)
Lemma revoke_again_not_noop :
  let clk := RevokeClock (Sample.t0 + 7200 * Sample.second)
                         (Sample.t0 + 7200 * Sample.second) in
  let s' := (revoke_license (Some 2) Sample.revoked_license 1 clk).2 in
  License.revoked_by <$> licenses Sample.revoked_license !! 0%nat
    = Some (Some 1) ∧
  License.revoked_by <$> licenses s' !! 0%nat = Some (Some 2) ∧
  length (audit_logs Sample.revoked_license) = 1%nat ∧
  length (audit_logs s') = 2%nat ∧
  ¬ revoke_again_as_stated.
Proof.
  do 4 (split; [vm_compute; reflexivity|]).
  intros H.
  edestruct (H Sample.revoked_license 2 1
               (RevokeClock (Sample.t0 + 7200 * Sample.second)
                            (Sample.t0 + 7200 * Sample.second)) 0%nat)
    as (_ & _ & Haudit).
  - vm_compute. reflexivity.
  - reflexivity.
  - vm_compute in Haudit. discriminate.
Qed.

Lemma create_fresh admin s key d clk e :
  key ≠ "" →
  Query.first (λ l, License.key l = key) (licenses s) = None →
  Datetime.timedelta_days d ≫= Datetime.add (create_at_expires clk) = e →
  create_license (Some admin) s (CreateForm (Some key) (FieldInt d)) clk =
    match e with
    | Some expires_at =>
        (Flash "License created successfully" "success",
         set_licenses
           (licenses s ++
            [License.Row (Query.next_id (License.id <$> licenses s)) key
               "active" (Some expires_at) (Some (create_at_created clk)) None
               (Some admin) None]) s)
    | None => (Flash "Error creating license" "error", s)
    end.
Proof.
  intros Hkey Hfresh <-. unfold create_license, login_required. simpl.
  rewrite decide_False by done. rewrite Hfresh.
  rewrite decide_False by (by intros [? [=]]). done.
Qed.

(** C7, as the code has it.  A duplicate key fails with "License key
    already exists" and creates nothing.  A fresh key creates the license
    with status active and expiration now + duration_days days for every
    integer duration_days, negative ones included, as long as that
    datetime is representable; when it is not, the call fails with "Error
    creating license" and creates nothing. *)
Theorem create_any_duration admin s key d clk :
  key ≠ "" →
  let out :=
    create_license (Some admin) s (CreateForm (Some key) (FieldInt d)) clk in
  let found := Query.first (λ l, License.key l = key) (licenses s) in
  let expires_at := create_at_expires clk + d * Datetime.US_PER_DAY in
  let representable :=
    -999999999 ≤ d ≤ 999999999 ∧ Datetime.MIN ≤ expires_at ≤ Datetime.MAX in
  (is_Some found →
   out = (Flash "License key already exists" "error", s)) ∧
  (found = None → representable →
   out = (Flash "License created successfully" "success",
          set_licenses
            (licenses s ++
             [License.Row (Query.next_id (License.id <$> licenses s)) key
                "active" (Some expires_at) (Some (create_at_created clk)) None
                (Some admin) None]) s)) ∧
  (found = None → ¬ representable →
   out = (Flash "Error creating license" "error", s)).
Proof.
  intros Hkey. cbv zeta. split_and!.
  - intros Hdup. unfold create_license, login_required. simpl.
    rewrite decide_False by done. by rewrite decide_True.
  - intros Hfresh [Hd He].
    rewrite (create_fresh _ _ _ _ _
               (Some (create_at_expires clk + d * Datetime.US_PER_DAY)));
      try done.
    unfold Datetime.timedelta_days, Datetime.add.
    rewrite decide_True by done. simpl. by rewrite decide_True.
  - intros Hfresh Hno.
    rewrite (create_fresh _ _ _ _ _ None); try done.
    unfold Datetime.timedelta_days, Datetime.add.
    destruct (decide (-999999999 ≤ d ≤ 999999999)); [|done]. simpl.
    destruct (decide _); [|done]. by destruct Hno.
Qed.

(** C7, as stated, fails: a fresh key with duration -1 is accepted, and the
    license it creates expired a day before. *)
Lemma create_negative_duration :
  create_license (Some 1) empty_db
    (CreateForm (Some "KEY-A") (FieldInt (-1)))
    (CreateClock Sample.t0 Sample.t0)
  = (Flash "License created successfully" "success",
     Db [License.Row 1 "KEY-A" "active" (Some (Sample.t0 - Sample.day))
           (Some Sample.t0) None (Some 1) None] [] []) ∧
  ¬ create_as_stated.
Proof.
  split; [vm_compute; reflexivity|].
  intros H.
  destruct (H 1 empty_db "KEY-A" (-1) (CreateClock Sample.t0 Sample.t0))
    as (_ & Hneg & _); [done|].
  destruct Hneg as [_ Hsame]; [done|done|].
  vm_compute in Hsame. discriminate.
Qed.

(** ** Status transitions *)

Lemma transition_of_refl r a : transition_of r a a.
Proof. destruct r; simpl; auto. Qed.

#[local] Hint Resolve transition_of_refl : store.

Section Transitions.

Context `{B : PyJWT.Backend} `{E : Sqlite.Engine}.
Variable secret : string.

Lemma handle_transition s r :
  evolves (λ l l', transition_of r (License.status l) (License.status l'))
    (licenses s) (licenses (handle secret s r)).
Proof.
  unfold handle, respond.
  destruct r; simpl;
    unfold activate_license, validate, validate_license, create_license,
      revoke_license, login_required;
    repeat case_match; unfold set_licenses, set_devices; simpl; table_step;
    simpl; auto using not_not_active.
Qed.

Lemma handle_known_status s r :
  Forall (λ l, known_status (License.status l)) (licenses s) →
  Forall (λ l, known_status (License.status l)) (licenses (handle secret s r)).
Proof.
  intros Hs. unfold handle, respond.
  destruct r; simpl;
    unfold activate_license, validate, validate_license, create_license,
      revoke_license, login_required;
    repeat case_match; unfold set_licenses, set_devices; simpl; try done.
  all: first [ apply Forall_insert | apply Forall_app_2 ]; try done.
  all: first [ apply Forall_singleton | idtac ]; unfold known_status; simpl;
    auto.
Qed.

Lemma reachable_run rs : reachable secret (run secret empty_db rs).
Proof. by exists rs. Qed.

Lemma reachable_known_status s :
  reachable secret s →
  Forall (λ l, known_status (License.status l)) (licenses s).
Proof.
  intros [rs ->].
  assert (∀ s0, Forall (λ l, known_status (License.status l)) (licenses s0) →
    Forall (λ l, known_status (License.status l)) (licenses (run secret s0 rs)))
    as Hrun.
  { induction rs as [|r rs IH]; intros s0 Hs0; simpl; [done|].
    apply IH. by apply handle_known_status. }
  apply Hrun. constructor.
Qed.

(** C2, as the code has it.  In a reachable store every license row
    survives every request, and its status either stays, or goes from
    active to expired (activate and validate only), or becomes revoked
    (revoke only) out of active or out of expired; revoked is final and
    nothing returns to active. *)
Theorem status_transitions s r i l :
  reachable secret s →
  licenses s !! i = Some l →
  ∃ l', licenses (handle secret s r) !! i = Some l' ∧
    transition_of r (License.status l) (License.status l') ∧
    (License.status l' = License.status l ∨
     (License.status l = "active" ∧ License.status l' = "expired") ∨
     (License.status l = "active" ∧ License.status l' = "revoked") ∨
     (License.status l = "expired" ∧ License.status l' = "revoked")).
Proof.
  intros Hreach Hl.
  destruct (handle_transition s r i l Hl) as (l' & Hl' & Htr).
  exists l'. split_and!; [done..|].
  apply reachable_known_status in Hreach.
  rewrite Forall_lookup in Hreach. specialize (Hreach i l Hl).
  destruct r; simpl in Htr; destruct Hreach as [Ha|[Ha|Ha]];
    rewrite Ha in Htr |- *; intuition (first [congruence | auto]).
Qed.

End Transitions.

(** C2, as stated, fails: the expired license of [Sample.expired_license]
    is revoked by a later revocation. *)
Lemma expired_then_revoked :
  let s' :=
    handle (B := ReferenceBackend.backend)
      (E := ReferenceEngine.engine) Sample.secret Sample.expired_license
      (Sample.revoke 1 1 (Sample.t0 + 60 * Sample.second)) in
  License.status <$> licenses Sample.expired_license !! 0%nat = Some "expired" ∧
  License.status <$> licenses s' !! 0%nat = Some "revoked" ∧
  ¬ transitions_as_stated (B := ReferenceBackend.backend)
      (E := ReferenceEngine.engine) Sample.secret.
Proof.
  split; [vm_compute; reflexivity|]. split; [vm_compute; reflexivity|].
  intros H.
  edestruct (H Sample.expired_license
               (Sample.revoke 1 1 (Sample.t0 + 60 * Sample.second)) 0%nat)
    as [Hactive _].
  - apply reachable_run.
  - vm_compute. reflexivity.
  - vm_compute. reflexivity.
  - vm_compute. discriminate.
  - discriminate Hactive.
Qed.

(** ** Lazy expiry and revocation, as seen by later requests *)

Lemma expires_before_past (l : License.row) (e t : datetime) :
  License.expires_at l = Some e → e < t → expires_before l t = true.
Proof.
  intros He Hlt. unfold expires_before. rewrite He.
  by apply bool_decide_eq_true.
Qed.

Section Later.

Context `{B : PyJWT.Backend} `{E : Sqlite.Engine}.
Variable secret : string.

(** A request that reaches the check of a row whose status is not active
    is answered "License is not active" and writes nothing. *)
Lemma not_active_reported s r i l :
  licenses s !! i = Some l →
  License.status l ≠ "active" →
  checks secret s r i →
  (respond secret s r).2 = s ∧
  reports_not_active (License.status l) (respond secret s r).1.
Proof.
  intros Hl Hst Hchk. destruct r as [data clk|authorization clk| |]; try done.
  - destruct Hchk as (k & d & l0 & Hk & Hd & Hfind).
    pose proof (first_lookup _ _ _ _ Hfind) as [Hl0 _].
    assert (l0 = l) as -> by congruence.
    unfold respond, activate_license. rewrite Hk, Hd, Hfind.
    rewrite decide_True by done. simpl. split; [done|by left].
  - destruct Hchk as (u & j & dev & l0 & Hu & Hdev & Hfind).
    pose proof (first_lookup _ _ _ _ Hfind) as [Hl0 _].
    assert (l0 = l) as -> by congruence.
    unfold respond, validate, validate_license. rewrite Hu, Hdev, Hfind.
    rewrite decide_True by done. simpl. split; [done|by right].
Qed.

(** A request that reaches the check of an active row after its
    expiration is answered "License has expired" and stores the row as
    expired. *)
Lemma expiry_reported s r i l e :
  licenses s !! i = Some l →
  License.status l = "active" →
  License.expires_at l = Some e →
  checks secret s r i →
  e < expiry_check_time r →
  reports_expired (respond secret s r).1 ∧
  handle secret s r
    = set_licenses (<[i := License.set_status "expired" l]> (licenses s)) s.
Proof.
  intros Hl Hst He Hchk Hlt.
  destruct r as [data clk|authorization clk| |]; try done.
  - destruct Hchk as (k & d & l0 & Hk & Hd & Hfind).
    pose proof (first_lookup _ _ _ _ Hfind) as [Hl0 _].
    assert (l0 = l) as -> by congruence.
    unfold handle, respond, activate_license. rewrite Hk, Hd, Hfind.
    rewrite decide_False by (by rewrite Hst; intros []).
    rewrite (expires_before_past l e) by done. simpl. split; [by left|done].
  - destruct Hchk as (u & j & dev & l0 & Hu & Hdev & Hfind).
    pose proof (first_lookup _ _ _ _ Hfind) as [Hl0 _].
    assert (l0 = l) as -> by congruence.
    unfold handle, respond, validate, validate_license.
    rewrite Hu, Hdev, Hfind.
    rewrite decide_False by (by rewrite Hst; intros []).
    rewrite (expires_before_past l e) by done. simpl. split; [by right|done].
Qed.

(** C3. An active license whose expires_at is earlier than the clock
    reading of an activate or validate call that checks it: that call
    answers "License has expired" and stores the status expired; after any
    further requests the status is expired or revoked, never active, and
    every activate or validate call that checks the license is answered
    "License is not active" without writing. *)
Theorem expiry_is_persistent s r i l e :
  licenses s !! i = Some l →
  License.status l = "active" →
  License.expires_at l = Some e →
  checks secret s r i →
  e < expiry_check_time r →
  reports_expired (respond secret s r).1 ∧
  License.status <$> licenses (handle secret s r) !! i = Some "expired" ∧
  ∀ rs, ∃ l2,
    let s2 := run secret (handle secret s r) rs in
    licenses s2 !! i = Some l2 ∧
    (License.status l2 = "expired" ∨ License.status l2 = "revoked") ∧
    ∀ r', checks secret s2 r' i →
      (respond secret s2 r').2 = s2 ∧
      reports_not_active (License.status l2) (respond secret s2 r').1.
Proof.
  intros Hl Hst He Hchk Hlt.
  destruct (expiry_reported s r i l e) as [Hresp Hs1]; try done.
  assert (licenses (handle secret s r) !! i
          = Some (License.set_status "expired" l)) as Hl1.
  { rewrite Hs1. simpl. apply list_lookup_insert_eq. by eapply lookup_lt_Some. }
  split_and!; [done|by rewrite Hl1|].
  intros rs.
  destruct (run_licenses secret rs _ i _ Hl1) as (l2 & Hl2 & _ & _ & _ & Hstep).
  simpl in Hstep. apply status_step_expired in Hstep.
  exists l2. simpl. split_and!; [done..|].
  intros r' Hchk'. apply (not_active_reported _ r' i l2); try done.
  by destruct Hstep as [-> | ->].
Qed.

(** C8. Once a license is revoked, then after any further requests every
    validate call whose token is accepted and whose device is bound to
    that license is answered "License is not active" with status revoked,
    and writes nothing: the device row is intact. *)
Theorem revoked_fails_validation s admin n clk i l :
  Query.first (λ l, License.id l = n) (licenses s) = Some (i, l) →
  ∀ rs authorization vclk u j dev,
    let s2 := run secret (revoke_license (Some admin) s n clk).2 rs in
    jwt_required secret authorization (validate_at_decode vclk) = Call u →
    Query.first (λ d, Device.device_id d = u) (devices s2) = Some (j, dev) →
    Device.license_id dev = n →
    validate secret s2 authorization vclk
      = (ValidateError 400 "License is not active" (Some "revoked"), s2) ∧
    devices s2 !! j = Some dev.
Proof.
  intros Hfind rs authorization vclk u j dev s2 Hu Hdev Hbound.
  pose proof (handle_licenses secret s (RevokeLicense (Some admin) n clk))
    as Hev.
  destruct (first_evolves license_step (λ l, License.id l = n) (licenses s)
              (licenses (revoke_license (Some admin) s n clk).2) i l)
    as (l1 & Hfind1 & _); [by intros a b (-> & _)|exact Hev|done|].
  assert (License.status l1 = "revoked") as Hst1.
  { pose proof (first_lookup _ _ _ _ Hfind1) as [Hl1 _].
    pose proof (first_lookup _ _ _ _ Hfind) as [Hl0 _].
    rewrite (revoke_found _ _ _ _ i l) in Hl1 by done. simpl in Hl1.
    rewrite list_lookup_insert_eq in Hl1 by (by eapply lookup_lt_Some).
    by injection Hl1 as <-. }
  destruct (run_first_id secret rs _ n i l1 Hfind1)
    as (l2 & Hfind2 & _ & _ & _ & Hstep).
  rewrite Hst1 in Hstep. apply status_step_revoked in Hstep.
  split; [|exact (proj1 (first_lookup _ _ _ _ Hdev))].
  unfold validate, validate_license. rewrite Hu. fold s2. rewrite Hdev, Hbound.
  fold s2 in Hfind2. rewrite Hfind2.
  rewrite decide_True by (by rewrite Hstep). by rewrite Hstep.
Qed.

End Later.

(** ** The token window *)

Section Window.

Context `{B : PyJWT.Backend} `{E : Sqlite.Engine}.
Variable secret : string.

Lemma jwt_required_issued (D : string) (n : Z) (e now : datetime) :
  jwt_required secret (Some ("Bearer " +:+ PyJWT.encode D n e secret)) now =
    if PyJWT.expired (Datetime.timegm e) now
    then Reject 401 "Token has expired"
    else Call D.
Proof.
  rewrite jwt_required_bearer, decode_encode. by destruct (PyJWT.expired _ _).
Qed.

Lemma issue_token_inv D lic T token st ex :
  issue_token secret D lic T = Activated token st ex →
  token_issuable T ∧
  token = PyJWT.encode D (License.id lic) (T + JWT_ACCESS_TOKEN_EXPIRES) secret ∧
  st = License.status lic ∧ ex = License.expires_at lic.
Proof.
  unfold issue_token, Datetime.add.
  destruct (decide _) as [Hok|]; [|done]. by intros [= <- <- <-].
Qed.

Lemma jwt_required_unparsed (h : string) (t : datetime) :
  h ≠ "" → PyJWT.split (strip_bearer h) = None →
  jwt_required secret (Some h) t = Reject 401 "Token is invalid".
Proof.
  intros Hh Hsplit. unfold jwt_required, PyJWT.decode.
  rewrite decide_False by done. by rewrite Hsplit.
Qed.

Lemma jwt_required_bad_signature (h : string) (t : datetime) (j : PyJWT.jws) :
  h ≠ "" → PyJWT.split (strip_bearer h) = Some j →
  PyJWT.signature j ≠ PyJWT.hmac_sha256 secret (PyJWT.signing_input j) →
  jwt_required secret (Some h) t = Reject 401 "Token is invalid".
Proof.
  intros Hh Hsplit Hsig. unfold jwt_required, PyJWT.decode.
  rewrite decide_False by done. rewrite Hsplit.
  rewrite (decide_False (P := PyJWT.signature j = _)) by done.
  by destruct (decide _).
Qed.

(** C5, as the code has it.  The exp claim is T + W cut to whole seconds.
    A token issued for D at T is accepted at every time before that whole
    second begins (so at every time up to T + W less one second), and is
    refused as expired at every time from one second after it began (so at
    every time from T + W plus one second); a missing or empty header is
    refused as missing, an unparsable or wrongly signed token as
    invalid. *)
Theorem token_window (D : string) (lic : License.row) (T t : datetime)
    (token st : string) (ex : option datetime) :
  issue_token secret D lic T = Activated token st ex →
  let header := Some ("Bearer " +:+ token) in
  let cut :=
    Datetime.timegm (T + JWT_ACCESS_TOKEN_EXPIRES) * Datetime.US_PER_SECOND in
  T + JWT_ACCESS_TOKEN_EXPIRES - Datetime.US_PER_SECOND < cut
    ≤ T + JWT_ACCESS_TOKEN_EXPIRES ∧
  (t < cut → jwt_required secret header t = Call D) ∧
  (cut + Datetime.US_PER_SECOND ≤ t →
   jwt_required secret header t = Reject 401 "Token has expired") ∧
  jwt_required secret None t = Reject 401 "Token is missing" ∧
  jwt_required secret (Some "") t = Reject 401 "Token is missing" ∧
  (∀ h, h ≠ "" → PyJWT.split (strip_bearer h) = None →
     jwt_required secret (Some h) t = Reject 401 "Token is invalid") ∧
  (∀ h j, h ≠ "" → PyJWT.split (strip_bearer h) = Some j →
     PyJWT.signature j ≠ PyJWT.hmac_sha256 secret (PyJWT.signing_input j) →
     jwt_required secret (Some h) t = Reject 401 "Token is invalid").
Proof.
  intros (_ & -> & _)%issue_token_inv. cbv zeta. split_and!.
  - pose proof (timegm_bounds (T + JWT_ACCESS_TOKEN_EXPIRES)).
    unfold Datetime.US_PER_SECOND in *. lia.
  - apply (timegm_bounds (T + JWT_ACCESS_TOKEN_EXPIRES)).
  - intros Hlt. by apply issued_token_accepted.
  - intros Hle. apply issued_token_expired.
    unfold Datetime.US_PER_SECOND in *. lia.
  - done.
  - done.
  - intros h. apply jwt_required_unparsed.
  - intros h j. apply jwt_required_bad_signature.
Qed.

(** Whatever the release of the library, the window as stated fails for a
    token issued half a second past a whole second. *)
Lemma token_window_never_as_stated : ¬ token_window_as_stated secret.
Proof.
  intros [Hwin _].
  assert (issue_token secret "dev1" Sample.license_A 500000 =
          Activated
            (PyJWT.encode "dev1" 1 (500000 + JWT_ACCESS_TOKEN_EXPIRES) secret)
            "active" (Some Sample.expiry_A)) as Hissue by reflexivity.
  destruct PyJWT.expired_when_equal eqn:Heq.
  - destruct (Hwin _ _ _ 86400000000 _ _ _ Hissue) as [Hacc _].
    rewrite jwt_required_issued in Hacc. unfold PyJWT.expired in Hacc.
    rewrite Heq in Hacc.
    destruct PyJWT.now_in_whole_seconds;
      (specialize (Hacc ltac:(reflexivity)); vm_compute in Hacc; discriminate).
  - destruct PyJWT.now_in_whole_seconds eqn:Hws.
    + destruct (Hwin _ _ _ 86400500001 _ _ _ Hissue) as [_ Hrej].
      rewrite jwt_required_issued in Hrej. unfold PyJWT.expired in Hrej.
      rewrite Heq, Hws in Hrej.
      specialize (Hrej ltac:(reflexivity)). vm_compute in Hrej. discriminate.
    + destruct (Hwin _ _ _ 86400000001 _ _ _ Hissue) as [Hacc _].
      rewrite jwt_required_issued in Hacc. unfold PyJWT.expired in Hacc.
      rewrite Heq, Hws in Hacc.
      specialize (Hacc ltac:(reflexivity)). vm_compute in Hacc. discriminate.
Qed.

End Window.

(** C5, as stated, fails: a token issued half a second past a whole second
    is refused as expired one microsecond before T + W; and no release of
    the library gives the stated window. *)
Lemma token_expires_early :
  let T := Sample.t0 + 500000 in
  let issued :=
    issue_token (B := ReferenceBackend.backend) Sample.secret "dev1"
      Sample.license_A T in
  (∃ token,
     issued = Activated token "active" (Some Sample.expiry_A) ∧
     jwt_required (B := ReferenceBackend.backend) Sample.secret
       (Some ("Bearer " +:+ token)) (T + JWT_ACCESS_TOKEN_EXPIRES - 1)
       = Reject 401 "Token has expired") ∧
  ¬ ∃ (B : PyJWT.Backend) (secret : string),
      token_window_as_stated (B := B) secret.
Proof.
  split.
  - exists Sample.half_second_token. split; vm_compute; reflexivity.
  - intros (B & secret & H). by apply (token_window_never_as_stated secret).
Qed.

(** ** Validation *)

Lemma validate_license_success u s clk st ex days s' :
  validate_license u s clk = (Valid st ex days, s') →
  ∃ j dev i l,
    Query.first (λ d, Device.device_id d = u) (devices s) = Some (j, dev) ∧
    Query.first (λ l, License.id l = Device.license_id dev) (licenses s)
      = Some (i, l) ∧
    License.status l = "active" ∧ st = "active" ∧
    ex = License.expires_at l ∧
    expires_before l (validate_at_expiry_check clk) = false ∧
    days = (λ e, Datetime.days
                   (Datetime.sub e (validate_at_days_remaining clk))) <$> ex ∧
    s' = set_devices
           (<[j := Device.set_last_validated
                     (Some (validate_at_last_validated clk)) dev]>
              (devices s)) s.
Proof.
  unfold validate_license.
  destruct (Query.first _ (devices s)) as [[j dev]|] eqn:Hdev; [|done].
  destruct (Query.first _ (licenses s)) as [[i l]|] eqn:Hlic; [|done].
  destruct (decide _) as [|Hst%not_not_active]; [done|].
  destruct (expires_before _ _) eqn:Hexp; [done|].
  intros [= <- <- <- <-]. exists j, dev, i, l.
  split_and!; done.
Qed.

(** X1. A successful validation persists the device's last_validated and
    nothing else; its days_remaining is null without an expiration, and
    non-negative when the clock reading it is computed from is not past
    the expiration. *)
Lemma validate_license_days u s clk st ex days s' :
  validate_license u s clk = (Valid st ex days, s') →
  licenses s' = licenses s ∧ audit_logs s' = audit_logs s ∧
  evolves device_step (devices s) (devices s') ∧
  length (devices s') = length (devices s) ∧
  (ex = None → days = None) ∧
  (∀ e, ex = Some e → validate_at_days_remaining clk ≤ e →
     ∃ n, days = Some n ∧ 0 ≤ n).
Proof.
  intros (j & dev & i & l & Hdev & _ & _ & _ & _ & _ & -> & ->)
    %validate_license_success.
  simpl. split_and!; try done.
  - table_step. apply touch_step.
  - by rewrite length_insert.
  - by intros ->.
  - intros e -> Hle. eexists. split; [done|].
    unfold Datetime.days, Datetime.sub, Datetime.US_PER_DAY,
      Datetime.US_PER_SECOND.
    apply Z.div_pos; lia.
Qed.

(** C10 on the code.  The license of [dev1] expires at [Sample.expiry_A]
    and a validation is served across that instant: its expiry check reads
    the clock 2 ms before the deadline and passes, and days_remaining is
    computed from a reading 3 ms past it.  The call succeeds with
    days_remaining = -1, through the view and through the whole endpoint
    alike, where the model's own [days_remaining] property answers 0 at
    that same reading. *)
Theorem days_remaining_negative :
  (validate_license "dev1" Sample.dev1_on_A Sample.straddling).1
    = Valid "active" (Some Sample.expiry_A) (Some (-1)) ∧
  (validate (B := ReferenceBackend.backend) Sample.secret Sample.dev1_on_A
     (Some ("Bearer " +:+ Sample.late_token)) Sample.straddling).1
    = Valid "active" (Some Sample.expiry_A) (Some (-1)) ∧
  License.days_remaining Sample.license_A
    (validate_at_days_remaining Sample.straddling) = Some 0.
Proof. split_and!; vm_compute; reflexivity. Qed.

(** ** What the handlers write, and what every reachable store keeps *)

Lemma fmap_insert_keep {A C} (f : A → C) (l : list A) (i : nat) (x y : A) :
  l !! i = Some x → f y = f x → f <$> <[i := y]> l = f <$> l.
Proof.
  intros Hi Hf. rewrite list_fmap_insert, Hf.
  apply list_insert_id. by rewrite list_lookup_fmap, Hi.
Qed.

Lemma first_None_not_elem {A C} `{EqDecision C} (f : A → C) (c : C)
    (table : list A) :
  Query.first (λ x, f x = c) table = None → c ∉ f <$> table.
Proof.
  unfold Query.first. rewrite list_find_None, Forall_lookup.
  intros Hnone (x & -> & Hx)%list_elem_of_fmap.
  apply list_elem_of_lookup in Hx as [i Hi]. by apply (Hnone i x).
Qed.

(** Where a column has no duplicate, the first row with a value is the
    row with that value. *)
Lemma first_unique {A C} `{EqDecision C} (f : A → C) (table : list A)
    (i : nat) (x : A) :
  NoDup (f <$> table) → table !! i = Some x →
  Query.first (λ y, f y = f x) table = Some (i, x).
Proof.
  intros Hnd Hi. unfold Query.first. apply list_find_Some.
  split_and!; [done..|]. intros j y Hj Hlt Hfy.
  assert (j = i); [|lia].
  eapply (NoDup_lookup _ _ _ (f x) Hnd);
    rewrite list_lookup_fmap; [rewrite Hj; simpl; by rewrite Hfy|by rewrite Hi].
Qed.

Lemma foldr_max_seqZ (n : nat) (a : Z) :
  0 ≤ a → foldr Z.max a (seqZ 1 (Z.of_nat n)) = Z.max a (Z.of_nat n).
Proof.
  revert a. induction n as [|n IH]; intros a Ha.
  - simpl. lia.
  - rewrite seqZ_S, foldr_app. simpl. rewrite IH by lia. lia.
Qed.

Lemma next_id_consecutive (ids : list Z) :
  consecutive ids → Query.next_id ids = Z.of_nat (length ids) + 1.
Proof.
  unfold consecutive, Query.next_id. intros ->.
  rewrite foldr_max_seqZ by done. rewrite length_seqZ. lia.
Qed.

Lemma consecutive_next (ids : list Z) :
  consecutive ids → consecutive (ids ++ [Query.next_id ids]).
Proof.
  intros Hids. rewrite (next_id_consecutive ids Hids).
  unfold consecutive in *. rewrite length_app. simpl.
  rewrite Nat.add_1_r, seqZ_S, <- Hids. f_equal. f_equal. lia.
Qed.

Lemma consecutive_NoDup (ids : list Z) : consecutive ids → NoDup ids.
Proof. intros ->. apply NoDup_seqZ. Qed.

Section Writes.

Context `{B : PyJWT.Backend} `{E : Sqlite.Engine}.
Variable secret : string.

Lemma activate_effect s data clk :
  effect s (activate_license secret s data clk).2.
Proof.
  unfold activate_license.
  destruct (license_key data) as [[|k]|]; [| |apply effect_none];
    (destruct (device_id data) as [d|]; [|apply effect_none]);
    [apply effect_none|].
  destruct (Query.first _ (licenses s)) as [[i lic]|] eqn:Hlic;
    [|apply effect_none].
  apply first_lookup in Hlic as [Hi Hk].
  destruct (decide _) as [|Hst%not_not_active]; [apply effect_none|].
  destruct (expires_before _ _); [by apply effect_expire|].
  destruct d as [|d]; [apply effect_none|].
  destruct (Query.first _ (devices s)) as [[j dev]|] eqn:Hdev.
  - destruct (decide _); apply effect_none.
  - by apply (effect_register s i lic k d (device_info data) clk).
Qed.

Lemma validate_effect s authorization clk :
  effect s (validate secret s authorization clk).2.
Proof.
  unfold validate. destruct (jwt_required _ _ _); [|apply effect_none].
  unfold validate_license.
  destruct (Query.first _ (devices s)) as [[j dev]|] eqn:Hdev;
    [|apply effect_none].
  destruct (Query.first _ (licenses s)) as [[i lic]|] eqn:Hlic;
    [|apply effect_none].
  apply first_lookup in Hlic as [Hi _]. apply first_lookup in Hdev as [Hj _].
  destruct (decide _) as [|Hst%not_not_active]; [apply effect_none|].
  destruct (expires_before _ _); [by apply effect_expire|].
  by apply effect_touch.
Qed.

Lemma create_effect current_user s form clk :
  effect s (create_license current_user s form clk).2.
Proof.
  unfold create_license, login_required.
  destruct current_user as [admin|]; [|apply effect_none].
  destruct (form_duration_days form); try apply effect_none.
  all: destruct (form_key form) as [key|]; [|apply effect_none].
  all: destruct (decide (key = "")); [apply effect_none|].
  all: destruct (decide (is_Some _)) as [|Hfresh]; [apply effect_none|].
  all: destruct (_ ≫= _); [|apply effect_none].
  all: apply effect_create; [done|].
  all: destruct (Query.first _ (licenses s)); [|done].
  all: by destruct Hfresh.
Qed.

Lemma revoke_effect current_user s n clk :
  effect s (revoke_license current_user s n clk).2.
Proof.
  unfold revoke_license, login_required.
  destruct current_user as [admin|]; [|apply effect_none].
  destruct (Query.first _ (licenses s)) as [[i l]|] eqn:Hl;
    [|apply effect_none].
  apply first_lookup in Hl as [Hi Hn]. by apply effect_revoke.
Qed.

Lemma handle_effect s r : effect s (handle secret s r).
Proof.
  unfold handle, respond. destruct r; simpl.
  - apply activate_effect.
  - apply validate_effect.
  - apply create_effect.
  - apply revoke_effect.
Qed.

Lemma run_app s rs1 rs2 :
  run secret s (rs1 ++ rs2) = run secret (run secret s rs1) rs2.
Proof. apply foldl_app. Qed.

Lemma reachable_handle s r : reachable secret s → reachable secret (handle secret s r).
Proof. intros [rs ->]. exists (rs ++ [r]). by rewrite run_app. Qed.

Lemma reachable_run_from s rs :
  reachable secret s → reachable secret (run secret s rs).
Proof. intros [rs0 ->]. exists (rs0 ++ rs). by rewrite run_app. Qed.

(** Induction over the reachable stores: what holds of the empty store and
    survives every write holds of them all. *)
Lemma reachable_invariant (P : db → Prop) :
  P empty_db → (∀ s s', effect s s' → P s → P s') →
  ∀ s, reachable secret s → P s.
Proof.
  intros Hempty Hstep s [rs ->].
  assert (∀ s0, P s0 → P (run secret s0 rs)) as Hrun; [|by apply Hrun].
  induction rs as [|r rs IH]; intros s0 Hs0; simpl; [done|].
  apply IH. eapply Hstep; [apply handle_effect|done].
Qed.

End Writes.

(** *** Invariants of the writes *)

Section Invariants.

Context `{E : Sqlite.Engine}.

Lemma effect_keys s s' :
  effect s s' →
  consecutive (License.id <$> licenses s) ∧
  consecutive (Device.id <$> devices s) ∧
  consecutive (AuditLog.id <$> audit_logs s) →
  consecutive (License.id <$> licenses s') ∧
  consecutive (Device.id <$> devices s') ∧
  consecutive (AuditLog.id <$> audit_logs s').
Proof.
  intros Heff (Hl & Hd & Ha).
  destruct Heff; simpl; rewrite ?fmap_app; simpl;
    rewrite ?(fmap_insert_keep License.id _ _ l) by done;
    rewrite ?(fmap_insert_keep Device.id _ _ d) by done;
    auto using consecutive_next.
Qed.

Lemma effect_unique_keys s s' :
  effect s s' →
  NoDup (License.key <$> licenses s) → NoDup (License.key <$> licenses s').
Proof.
  intros Heff Hnd.
  destruct Heff; simpl; rewrite ?fmap_app; simpl;
    rewrite ?(fmap_insert_keep License.key _ _ l) by done; try done.
  apply list.NoDup_app. split_and!; [done| |apply NoDup_singleton].
  intros x Hx ->%list_elem_of_singleton.
  by eapply (first_None_not_elem License.key).
Qed.

Lemma effect_unique_devices s s' :
  effect s s' →
  NoDup (Device.device_id <$> devices s) →
  NoDup (Device.device_id <$> devices s').
Proof.
  intros Heff Hnd.
  destruct Heff; simpl; rewrite ?fmap_app; simpl;
    rewrite ?(fmap_insert_keep Device.device_id _ _ d) by done; try done.
  apply list.NoDup_app. split_and!; [done| |apply NoDup_singleton].
  intros x Hx ->%list_elem_of_singleton.
  by eapply (first_None_not_elem Device.device_id).
Qed.

Lemma effect_refs s s' :
  effect s s' →
  Forall (λ d, Device.license_id d ∈ License.id <$> licenses s) (devices s) →
  Forall (λ d, Device.license_id d ∈ License.id <$> licenses s') (devices s').
Proof.
  intros Heff Hrefs.
  destruct Heff; simpl; rewrite ?fmap_app;
    rewrite ?(fmap_insert_keep License.id _ _ l) by done; try done.
  - apply Forall_insert; [done|]. simpl.
    rewrite Forall_lookup in Hrefs. by apply (Hrefs j d).
  - apply Forall_app. split; [done|]. apply Forall_singleton. simpl.
    apply list_elem_of_fmap. exists lic. split; [done|].
    apply list_elem_of_lookup. eauto.
  - eapply List.Forall_impl; [|exact Hrefs]. intros d Hd. simpl in *.
    apply elem_of_app. by left.
Qed.

Lemma effect_stamped s s' :
  effect s s' → Forall stamped (licenses s) → Forall stamped (licenses s').
Proof.
  intros Heff Hst.
  destruct Heff; simpl; try done.
  - apply Forall_insert; [done|].
    rewrite Forall_lookup in Hst. specialize (Hst i l H).
    destruct Hst as [(Hrev & _)|(_ & Hat & Hby)]; [congruence|].
    right. simpl. by split_and!.
  - apply Forall_app. split; [done|]. apply Forall_singleton.
    right. simpl. by split_and!.
  - apply Forall_insert; [done|]. left. simpl. by split_and!.
Qed.

Lemma effect_entries s s' :
  effect s s' →
  AuditLog.license_id <$> activation_entries s
    = (λ d, Some (Device.license_id d)) <$> devices s →
  AuditLog.license_id <$> activation_entries s'
    = (λ d, Some (Device.license_id d)) <$> devices s'.
Proof.
  intros Heff Hent. unfold activation_entries in *.
  destruct Heff; simpl; rewrite ?list.filter_app, ?fmap_app; try done.
  - by rewrite (fmap_insert_keep _ _ _ d).
  - by rewrite Hent.
  - by rewrite app_nil_r.
Qed.

Lemma effect_audit_prefix s s' :
  effect s s' →
  audit_logs s `prefix_of` audit_logs s' ∧
  (length (audit_logs s') ≤ S (length (audit_logs s)))%nat.
Proof.
  intros Heff. destruct Heff; simpl; rewrite ?length_app; simpl;
    (split; [first [done|by apply prefix_app_r]|lia]).
Qed.

Lemma same_license_refl l : same_license l l.
Proof. by unfold same_license. Qed.

Lemma same_license_trans l1 l2 l3 :
  same_license l1 l2 → same_license l2 l3 → same_license l1 l3.
Proof.
  unfold same_license. intros (?&?&?&?&?) (?&?&?&?&?).
  split_and!; congruence.
Qed.

Lemma effect_same_license s s' :
  effect s s' → evolves same_license (licenses s) (licenses s').
Proof.
  intros Heff. destruct Heff; simpl.
  - apply evolves_refl, same_license_refl.
  - by apply (evolves_insert _ same_license_refl _ _ l).
  - apply evolves_refl, same_license_refl.
  - apply evolves_refl, same_license_refl.
  - apply evolves_app, same_license_refl.
  - by apply (evolves_insert _ same_license_refl _ _ l).
Qed.

End Invariants.

Section Reachable.

Context `{B : PyJWT.Backend} `{E : Sqlite.Engine}.
Variable secret : string.

Lemma reachable_keys s :
  reachable secret s →
  consecutive (License.id <$> licenses s) ∧
  consecutive (Device.id <$> devices s) ∧
  consecutive (AuditLog.id <$> audit_logs s).
Proof.
  revert s. apply reachable_invariant; [done|]. apply effect_keys.
Qed.

Lemma reachable_unique_keys s :
  reachable secret s → NoDup (License.key <$> licenses s).
Proof.
  revert s. apply reachable_invariant; [constructor|].
  apply effect_unique_keys.
Qed.

Lemma reachable_unique_devices s :
  reachable secret s → NoDup (Device.device_id <$> devices s).
Proof.
  revert s. apply reachable_invariant; [constructor|].
  apply effect_unique_devices.
Qed.

Lemma reachable_refs s :
  reachable secret s →
  Forall (λ d, Device.license_id d ∈ License.id <$> licenses s) (devices s).
Proof.
  revert s. apply reachable_invariant; [constructor|]. apply effect_refs.
Qed.

Lemma reachable_stamped s :
  reachable secret s → Forall stamped (licenses s).
Proof.
  revert s. apply reachable_invariant; [constructor|]. apply effect_stamped.
Qed.

Lemma reachable_entries s :
  reachable secret s →
  AuditLog.license_id <$> activation_entries s
    = (λ d, Some (Device.license_id d)) <$> devices s.
Proof.
  revert s. apply reachable_invariant; [done|]. apply effect_entries.
Qed.

(** In a reachable store the lookup by primary key of a license row finds
    that row. *)
Lemma reachable_get s i l :
  reachable secret s → licenses s !! i = Some l →
  Query.first (λ x, License.id x = License.id l) (licenses s) = Some (i, l).
Proof.
  intros Hs Hl. apply first_unique; [|done].
  apply consecutive_NoDup. by apply reachable_keys.
Qed.

Lemma reachable_by_key s i l :
  reachable secret s → licenses s !! i = Some l →
  Query.first (λ x, License.key x = License.key l) (licenses s) = Some (i, l).
Proof.
  intros Hs Hl. apply first_unique; [|done]. by apply reachable_unique_keys.
Qed.

End Reachable.

(** ** Further properties of the store *)

Lemma filter_all {A} (P : A → Prop) `{∀ x, Decision (P x)} (l : list A) :
  Forall P l → filter P l = l.
Proof.
  induction 1 as [|x l Hx Hl IH]; [done|].
  rewrite filter_cons_True by done. by rewrite IH.
Qed.

Section Store.

Context `{B : PyJWT.Backend} `{E : Sqlite.Engine}.
Variable secret : string.

(** X2. In every reachable store the primary keys of each table are 1, 2,
    3, ... in insertion order: a key is never reused or skipped. *)
Theorem primary_keys_consecutive s :
  reachable secret s →
  License.id <$> licenses s = seqZ 1 (Z.of_nat (length (licenses s))) ∧
  Device.id <$> devices s = seqZ 1 (Z.of_nat (length (devices s))) ∧
  AuditLog.id <$> audit_logs s = seqZ 1 (Z.of_nat (length (audit_logs s))).
Proof.
  intros (Hl & Hd & Ha)%reachable_keys. unfold consecutive in *.
  by rewrite !length_fmap in *.
Qed.

(** X3. In every reachable store no two License rows have the same key. *)
Theorem license_keys_unique s i j l l' :
  reachable secret s →
  licenses s !! i = Some l → licenses s !! j = Some l' →
  i ≠ j → License.key l ≠ License.key l'.
Proof.
  intros Hs Hi Hj Hne Hkey. apply Hne.
  eapply (NoDup_lookup _ _ _ (License.key l) (reachable_unique_keys secret s Hs));
    rewrite list_lookup_fmap; [by rewrite Hi|by rewrite Hj, Hkey].
Qed.

(** X4. In every reachable store no two Device rows have the same
    device_id: a device identifier is bound to at most one license. *)
Theorem device_ids_unique s i j d d' :
  reachable secret s →
  devices s !! i = Some d → devices s !! j = Some d' →
  i ≠ j → Device.device_id d ≠ Device.device_id d'.
Proof.
  intros Hs Hi Hj Hne Hdev. apply Hne.
  eapply (NoDup_lookup _ _ _ (Device.device_id d)
            (reachable_unique_devices secret s Hs));
    rewrite list_lookup_fmap; [by rewrite Hi|by rewrite Hj, Hdev].
Qed.

(** X5. In every reachable store each Device row's license_id is the
    primary key of a License row, so the lookup of [validate_license]
    succeeds and the view never answers "License not found". *)
Theorem devices_reference_licenses s :
  reachable secret s →
  (∀ j d, devices s !! j = Some d →
     ∃ i l, Query.first (λ l, License.id l = Device.license_id d) (licenses s)
              = Some (i, l)) ∧
  ∀ u clk,
    (validate_license u s clk).1 ≠ ValidateError 404 "License not found" None.
Proof.
  intros Hs.
  assert (∀ j d, devices s !! j = Some d →
     ∃ i l, Query.first (λ l, License.id l = Device.license_id d) (licenses s)
              = Some (i, l)) as Hget.
  { intros j d Hd. pose proof (reachable_refs secret s Hs) as Hrefs.
    rewrite Forall_lookup in Hrefs.
    apply Hrefs, list_elem_of_fmap in Hd as (l & Hid & Hl).
    apply list_elem_of_lookup in Hl as [i Hi]. exists i, l.
    rewrite Hid. by apply (reachable_get secret). }
  split; [done|]. intros u clk. unfold validate_license.
  destruct (Query.first _ (devices s)) as [[j d]|] eqn:Hd; [|done].
  apply first_lookup in Hd as [Hd _].
  destruct (Hget j d Hd) as (i & l & ->).
  by repeat case_match.
Qed.

(** X6. The audit log is append-only: whatever the requests, the log
    before is a prefix of the log after, and one request appends at most
    one entry. *)
Theorem audit_log_append_only s rs :
  audit_logs s `prefix_of` audit_logs (run secret s rs) ∧
  ∀ r, (length (audit_logs (handle secret s r))
        ≤ S (length (audit_logs s)))%nat.
Proof.
  split.
  - revert s. induction rs as [|r rs IH]; intros s; simpl; [done|].
    etrans; [|apply IH]. apply effect_audit_prefix, handle_effect.
  - intros r. apply effect_audit_prefix, handle_effect.
Qed.

(** X7. No request deletes a License row or changes its id, key,
    expires_at, created_at or created_by. *)
Theorem license_identity_kept s rs i l :
  licenses s !! i = Some l →
  ∃ l', licenses (run secret s rs) !! i = Some l' ∧
    License.id l' = License.id l ∧ License.key l' = License.key l ∧
    License.expires_at l' = License.expires_at l ∧
    License.created_at l' = License.created_at l ∧
    License.created_by l' = License.created_by l.
Proof.
  revert s l. induction rs as [|r rs IH]; intros s l Hl; simpl.
  - exists l. by split_and!.
  - destruct (effect_same_license s _ (handle_effect secret s r) i l Hl)
      as (l1 & Hl1 & Hsame1).
    destruct (IH _ l1 Hl1) as (l2 & Hl2 & Hsame2).
    exists l2. split; [done|]. by apply (same_license_trans l l1 l2).
Qed.

(** X8. No request deletes a Device row or rebinds it: after any requests
    the row differs from what it was in last_validated at most. *)
Theorem device_binding_kept s rs j d :
  devices s !! j = Some d →
  ∃ d', devices (run secret s rs) !! j = Some d' ∧
    Device.id d' = Device.id d ∧
    Device.device_id d' = Device.device_id d ∧
    Device.license_id d' = Device.license_id d ∧
    Device.device_info d' = Device.device_info d ∧
    Device.fcm_token d' = Device.fcm_token d ∧
    Device.registered_at d' = Device.registered_at d ∧
    Device.is_active d' = Device.is_active d.
Proof.
  intros Hd. destruct (run_devices secret rs s j d Hd) as (d' & Hd' & Hstep).
  exists d'. split; [done|]. unfold device_step in Hstep. rewrite Hstep.
  by destruct d.
Qed.

(** X9. In every reachable store a license is revoked exactly when it
    carries a revocation timestamp and a revoker: revoked rows have both,
    all other rows have neither. *)
Theorem revoked_iff_stamped s i l :
  reachable secret s →
  licenses s !! i = Some l →
  (License.status l = "revoked" ↔ is_Some (License.revoked_at l)) ∧
  (License.status l = "revoked" ↔ is_Some (License.revoked_by l)).
Proof.
  intros Hs Hl. pose proof (reachable_stamped secret s Hs) as Hst.
  rewrite Forall_lookup in Hst.
  destruct (Hst i l Hl) as [(Hrev & Hat & Hby)|(Hrev & Hat & Hby)].
  - by split.
  - rewrite Hat, Hby. split; split; intros H; try done; by destruct H.
Qed.

(** X10. In every reachable store the license_activated entries of the
    audit log, in order, name the licenses of the Device rows, in order:
    every Device row has its activation entry, under the license it is
    bound to, and there is no other activation entry, so a request that
    registers no device logs no activation. *)
Theorem activation_entries_list_devices s :
  reachable secret s →
  AuditLog.license_id <$> activation_entries s
    = (λ d, Some (Device.license_id d)) <$> devices s.
Proof. apply reachable_entries. Qed.

(** X11. In every reachable store the status of a license is active,
    expired or revoked. *)
Theorem statuses_known s i l :
  reachable secret s →
  licenses s !! i = Some l →
  License.status l = "active" ∨ License.status l = "expired" ∨
  License.status l = "revoked".
Proof.
  intros Hs Hl. pose proof (reachable_known_status secret s Hs) as Hk.
  rewrite Forall_lookup in Hk. apply (Hk i l Hl).
Qed.

(** X12. In every reachable store the device list of the admin console
    shows every Device row: the join with the licenses drops none. *)
Theorem admin_devices_lists_all s :
  reachable secret s → admin_devices s ≡ₚ devices s.
Proof.
  intros Hs. unfold admin_devices. rewrite filter_all; [done|].
  eapply List.Forall_impl; [|apply (reachable_refs secret s Hs)].
  intros d (l & Hid & Hl)%list_elem_of_fmap. simpl.
  apply Exists_exists. exists l. split; [|done].
  by apply list_elem_of_In.
Qed.

End Store.

(** ** Requests in sequence *)

Lemma expires_before_false (l : License.row) (t : datetime) :
  (∀ e, License.expires_at l = Some e → t ≤ e) → expires_before l t = false.
Proof.
  intros Hle. unfold expires_before.
  destruct (License.expires_at l) as [e|]; [|done].
  apply bool_decide_eq_false. specialize (Hle e eq_refl). lia.
Qed.

Section Sequences.

Context `{B : PyJWT.Backend} `{E : Sqlite.Engine}.
Variable secret : string.

(** What a successful activation has found and done. *)
Lemma activate_success s data clk token st ex s1 :
  activate_license secret s data clk = (Activated token st ex, s1) →
  ∃ k d i lic j dev,
    license_key data = Some (JsonString k) ∧
    device_id data = Some (JsonString d) ∧
    Query.first (λ l, License.key l = k) (licenses s) = Some (i, lic) ∧
    License.status lic = "active" ∧
    token = PyJWT.encode d (License.id lic)
              (activate_at_token clk + JWT_ACCESS_TOKEN_EXPIRES) secret ∧
    st = "active" ∧ ex = License.expires_at lic ∧
    licenses s1 = licenses s ∧
    Query.first (λ x, Device.device_id x = d) (devices s1) = Some (j, dev) ∧
    Device.license_id dev = License.id lic.
Proof.
  unfold activate_license.
  destruct (license_key data) as [[|k]|]; [| |done];
    (destruct (device_id data) as [d|]; [|done]); [done|].
  destruct (Query.first _ (licenses s)) as [[i lic]|] eqn:Hlic; [|done].
  destruct (decide _) as [|Hst%not_not_active]; [done|].
  destruct (expires_before _ _); [done|].
  destruct d as [|d]; [done|].
  destruct (Query.first _ (devices s)) as [[j dev]|] eqn:Hdev.
  - destruct (decide _) as [Hbound|]; [|done].
    intros [= Htok <-]. apply issue_token_inv in Htok as (_ & -> & -> & ->).
    exists k, d, i, lic, j, dev. by split_and!.
  - intros [= Htok <-]. apply issue_token_inv in Htok as (_ & -> & -> & ->).
    exists k, d, i, lic, (length (devices s)),
      (registered s d (device_info data) lic clk).
    split_and!; try done. simpl. by apply first_appended.
Qed.

(** X13. Activation and validation round trip: in a reachable store, the
    token a successful activation returns, presented before the whole
    second of its exp and while the license is unexpired at the expiry
    check, validates: the answer is valid with status active, and the
    only write is the device's last_validated. *)
Theorem activate_then_validate s data clk token st ex s1 vclk :
  reachable secret s →
  activate_license secret s data clk = (Activated token st ex, s1) →
  validate_at_decode vclk
    < Datetime.timegm (activate_at_token clk + JWT_ACCESS_TOKEN_EXPIRES)
      * Datetime.US_PER_SECOND →
  (∀ e, ex = Some e → validate_at_expiry_check vclk ≤ e) →
  ∃ j dev,
    devices s1 !! j = Some dev ∧
    Some (JsonString (Device.device_id dev)) = device_id data ∧
    validate secret s1 (Some ("Bearer " +:+ token)) vclk =
      (Valid "active" ex
         ((λ e, Datetime.days
                  (Datetime.sub e (validate_at_days_remaining vclk))) <$> ex),
       set_devices
         (<[j := Device.set_last_validated
                   (Some (validate_at_last_validated vclk)) dev]>
            (devices s1)) s1).
Proof.
  intros Hs Hact Hdecode Hexp.
  apply activate_success in Hact
    as (k & d & i & lic & j & dev & Hk & Hd & Hlic & Hst & -> & -> & -> & Hsame
        & Hdev & Hbound).
  pose proof (first_lookup _ _ _ _ Hlic) as [Hi _].
  pose proof (first_lookup _ _ _ _ Hdev) as [Hj Hdid].
  exists j, dev. split_and!; [done|by rewrite Hdid, Hd|].
  unfold validate. rewrite issued_token_accepted by done.
  unfold validate_license. rewrite Hdev, Hbound, Hsame.
  rewrite (reachable_get secret s i lic) by done.
  rewrite decide_False by (by rewrite Hst; intros []).
  rewrite expires_before_false by done. rewrite Hst.
  by destruct (License.expires_at lic).
Qed.

(** X14. Creation and activation in sequence: a license created with a
    fresh key and a representable duration of n days is activated by an
    unregistered device as long as the clock at the expiry check is not
    past now + n days (the very instant of expiration included), and is
    answered "License has expired" from the next instant on, leaving no
    device behind.  With n = 0 the license is usable at the instant of
    its creation only. *)
Theorem create_then_activate admin s k n cclk d info clk :
  k ≠ "" →
  Query.first (λ l, License.key l = k) (licenses s) = None →
  -999999999 ≤ n ≤ 999999999 →
  Datetime.MIN ≤ create_at_expires cclk + n * Datetime.US_PER_DAY
    ≤ Datetime.MAX →
  Query.first (λ x, Device.device_id x = d) (devices s) = None →
  token_issuable (activate_at_token clk) →
  let e := create_at_expires cclk + n * Datetime.US_PER_DAY in
  let s1 :=
    (create_license (Some admin) s (CreateForm (Some k) (FieldInt n)) cclk).2 in
  let out :=
    activate_license secret s1
      (ActivateJson (Some (JsonString k)) (Some (JsonString d)) info) clk in
  (activate_at_expiry_check clk ≤ e →
   (∃ token, out.1 = Activated token "active" (Some e)) ∧
   length (devices out.2) = S (length (devices s))) ∧
  (e < activate_at_expiry_check clk →
   out.1 = ActivateError 400 "License has expired" ∧
   devices out.2 = devices s ∧
   License.status <$> licenses out.2 !! length (licenses s)
     = Some "expired").
Proof.
  intros Hk Hfresh Hn He Hdev Htok. cbv zeta.
  rewrite (create_fresh admin s k n cclk
             (Some (create_at_expires cclk + n * Datetime.US_PER_DAY)))
    by (try done; unfold Datetime.timedelta_days, Datetime.add;
        rewrite decide_True by done; simpl; by rewrite decide_True).
  set (row := License.Row _ k "active" _ _ None (Some admin) None).
  simpl.
  assert (Query.first (λ l, License.key l = k) (licenses s ++ [row])
          = Some (length (licenses s), row)) as Hrow
    by (by apply first_appended).
  split.
  - intros Hle.
    rewrite (activate_first_time secret _ k d info clk (length (licenses s))
               row); try done.
    + rewrite issue_token_issuable by done. simpl.
      rewrite length_app. simpl. split; [by eexists|lia].
    + apply expires_before_false. simpl. by intros ? [= <-].
  - intros Hlt. unfold activate_license. simpl. rewrite Hrow.
    rewrite decide_False by (by intros []).
    rewrite (expires_before_past row _ _ eq_refl Hlt). simpl.
    split_and!; [done..|].
    rewrite list_lookup_insert_eq by (rewrite length_app; simpl; lia). done.
Qed.

(** X15. Once a license of a reachable store is revoked, then after any
    further requests every activation with its key, by any device, is
    answered "License is not active" and writes nothing. *)
Theorem revoked_fails_activation s admin n clk i l :
  reachable secret s →
  Query.first (λ l, License.id l = n) (licenses s) = Some (i, l) →
  ∀ rs d info aclk,
    let s2 := run secret (revoke_license (Some admin) s n clk).2 rs in
    activate_license secret s2
      (ActivateJson (Some (JsonString (License.key l))) (Some d) info) aclk
    = (ActivateError 400 "License is not active", s2).
Proof.
  intros Hs Hfind rs d info aclk s2.
  pose proof (first_lookup _ _ _ _ Hfind) as [Hi _].
  assert (reachable secret s2) as Hs2.
  { apply reachable_run_from.
    apply (reachable_handle secret s (RevokeLicense (Some admin) n clk) Hs). }
  assert (∃ l1, licenses (revoke_license (Some admin) s n clk).2 !! i = Some l1
                ∧ License.status l1 = "revoked"
                ∧ License.key l1 = License.key l) as (l1 & Hl1 & Hst1 & Hk1).
  { rewrite (revoke_found _ _ _ _ i l) by done. simpl. eexists.
    split; [apply list_lookup_insert_eq; by eapply lookup_lt_Some|done]. }
  destruct (run_licenses secret rs _ i l1 Hl1)
    as (l2 & Hl2 & _ & Hk2 & _ & Hstep).
  rewrite Hst1 in Hstep. apply status_step_revoked in Hstep.
  unfold activate_license. simpl. rewrite <- Hk1, <- Hk2.
  fold s2 in Hl2. rewrite (reachable_by_key secret s2 i l2) by done.
  by rewrite decide_True by (by rewrite Hstep).
Qed.

(** X16. A validation never inserts a row and never writes an audit
    entry, whatever it answers; unless it answers "License has expired" or
    valid, it writes nothing at all. *)
Theorem validate_inserts_nothing s authorization clk :
  let out := validate secret s authorization clk in
  audit_logs out.2 = audit_logs s ∧
  length (licenses out.2) = length (licenses s) ∧
  length (devices out.2) = length (devices s) ∧
  (∀ code error status,
     out.1 = ValidateError code error status →
     error ≠ "License has expired" → out.2 = s).
Proof.
  cbv zeta. unfold validate, validate_license.
  repeat case_match; simpl; rewrite ?length_insert;
    split_and!; try done; by intros ? ? ? [= <- <- <-] ?.
Qed.

(** X17. An activation never changes or removes a Device row or an audit
    entry and never adds or removes a License row: it appends as many
    Device rows as audit entries, one at most. *)
Theorem activate_appends s data clk :
  let out := activate_license secret s data clk in
  ∃ new_devices new_entries,
    devices out.2 = devices s ++ new_devices ∧
    audit_logs out.2 = audit_logs s ++ new_entries ∧
    length new_devices = length new_entries ∧
    (length new_devices ≤ 1)%nat ∧
    length (licenses out.2) = length (licenses s).
Proof.
  cbv zeta. unfold activate_license.
  repeat case_match; unfold set_licenses; simpl; rewrite ?length_insert;
    first [ exists [], []; rewrite !app_nil_r; split_and!; simpl;
            first [done | lia]
          | eexists [_], [_]; split_and!; simpl; first [done | lia] ].
Qed.

(** X18. The Bearer prefix is optional: a header that does not start with
    "Bearer " is treated exactly as the same text behind the prefix. *)
Theorem bearer_prefix_optional h t :
  h ≠ "" → startswith "Bearer " h = false →
  jwt_required secret (Some ("Bearer " +:+ h)) t
    = jwt_required secret (Some h) t.
Proof.
  intros Hh Hpre. unfold jwt_required.
  rewrite (decide_False (P := h = "")) by done.
  rewrite (decide_False (P := "Bearer " +:+ h = "")) by done.
  rewrite strip_bearer_prefixed. unfold strip_bearer. by rewrite Hpre.
Qed.

(** X19. A token that parses, is signed with the server's secret and is
    not expired, but whose payload has no user_id, is not refused as
    invalid: the lookup of the claim raises outside the handled
    exceptions and the answer is 500. *)
Theorem token_without_user_id h t j :
  h ≠ "" →
  PyJWT.split (strip_bearer h) = Some j →
  PyJWT.alg j = "HS256" →
  PyJWT.signature j = PyJWT.hmac_sha256 secret (PyJWT.signing_input j) →
  PyJWT.user_id (PyJWT.payload j) = None →
  (∀ e, PyJWT.exp (PyJWT.payload j) = Some e → PyJWT.expired e t = false) →
  jwt_required secret (Some h) t = Reject 500 "Internal server error".
Proof.
  intros Hh Hsplit Halg Hsig Huser Hexp. unfold jwt_required, PyJWT.decode.
  rewrite decide_False by done. rewrite Hsplit.
  rewrite decide_True by done. rewrite decide_True by done.
  destruct (PyJWT.exp (PyJWT.payload j)) as [e|].
  - rewrite (Hexp e eq_refl). by rewrite Huser.
  - by rewrite Huser.
Qed.

(** X20. A token issued under another secret is refused as invalid
    whenever the two secrets give the signing input different MACs, at
    any time, expired or not. *)
Theorem token_of_other_secret D n e other t :
  let c := PyJWT.Claims (Some D) (Some n) (Some (Datetime.timegm e)) in
  PyJWT.hmac_sha256 other (PyJWT.segments c)
    ≠ PyJWT.hmac_sha256 secret (PyJWT.segments c) →
  jwt_required secret (Some ("Bearer " +:+ PyJWT.encode D n e other)) t
    = Reject 401 "Token is invalid".
Proof.
  cbv zeta. intros Hmac. rewrite jwt_required_bearer.
  unfold PyJWT.decode, PyJWT.encode. rewrite PyJWT.split_join. simpl.
  by rewrite decide_False.
Qed.

End Sequences.

(** ** The properties of the License model *)

(** X21. [License.days_remaining] is null exactly without an expiration,
    and otherwise the whole days left, never negative: 0 from the last
    day on, and 0 once [is_expired] holds. *)
Theorem days_remaining_property l t :
  (License.expires_at l = None →
   License.days_remaining l t = None ∧ License.is_expired l t = false) ∧
  (∀ e, License.expires_at l = Some e →
     License.days_remaining l t
       = Some (Z.max 0 (Datetime.days (Datetime.sub e t))) ∧
     (e - t < Datetime.US_PER_DAY → License.days_remaining l t = Some 0) ∧
     (License.is_expired l t = true → License.days_remaining l t = Some 0)).
Proof.
  unfold License.days_remaining, License.is_expired.
  split; [by intros ->|]. intros e ->.
  assert (∀ x, x < Datetime.US_PER_DAY → Datetime.days x ≤ 0) as Hday.
  { intros x Hx. unfold Datetime.days.
    assert (x `div` Datetime.US_PER_DAY < 1); [|lia].
    apply Z.div_lt_upper_bound; unfold Datetime.US_PER_DAY,
      Datetime.US_PER_SECOND in *; lia. }
  split_and!.
  - f_equal. case_decide; lia.
  - intros Hlt. f_equal. specialize (Hday _ Hlt).
    unfold Datetime.sub. case_decide; lia.
  - intros Hexp%bool_decide_eq_true. f_equal.
    assert (Datetime.days (Datetime.sub e t) ≤ 0).
    { apply Hday. unfold Datetime.sub, Datetime.US_PER_DAY,
        Datetime.US_PER_SECOND. lia. }
    case_decide; lia.
Qed.

(** X22. [License.is_expired] gives the verdict of the expiry check that
    [activate_license] and [validate_license] write inline. *)
Theorem is_expired_agrees l t : License.is_expired l t = expires_before l t.
Proof.
  unfold License.is_expired, expires_before.
  destruct (License.expires_at l) as [e|]; [|done].
  apply bool_decide_ext. lia.
Qed.

(** ** The rows the service holds *)

Section Shapes.

Context `{E : Sqlite.Engine}.

Lemma effect_license_shape s s' :
  effect s s' →
  Forall license_shape (licenses s) → Forall license_shape (licenses s').
Proof.
  intros Heff Hsh. destruct Heff; simpl; try done.
  - apply Forall_insert; [done|].
    rewrite Forall_lookup in Hsh. apply (Hsh i l H).
  - apply Forall_app. split; [done|]. apply Forall_singleton.
    unfold license_shape. simpl. by split_and!.
  - apply Forall_insert; [done|].
    rewrite Forall_lookup in Hsh. apply (Hsh i l H).
Qed.

Lemma effect_device_shape s s' :
  effect s s' →
  Forall device_shape (devices s) → Forall device_shape (devices s').
Proof.
  intros Heff Hsh. destruct Heff; simpl; try done.
  - apply Forall_insert; [done|].
    rewrite Forall_lookup in Hsh. apply (Hsh j d H).
  - apply Forall_app. split; [done|]. apply Forall_singleton.
    unfold device_shape. simpl. by split_and!.
Qed.

Lemma effect_audit_shape s s' :
  effect s s' →
  Forall audit_shape (audit_logs s) → Forall audit_shape (audit_logs s').
Proof.
  intros Heff Hsh. destruct Heff; simpl; try done.
  - apply Forall_app. split; [done|]. apply Forall_singleton.
    unfold audit_shape. simpl. split_and!; try done. left. eauto.
  - apply Forall_app. split; [done|]. apply Forall_singleton.
    unfold audit_shape. simpl. split_and!; try done. by right.
Qed.

Lemma effect_audit_refs s s' :
  effect s s' →
  Forall (λ a, ∃ n, AuditLog.license_id a = Some n ∧
                    n ∈ License.id <$> licenses s) (audit_logs s) →
  Forall (λ a, ∃ n, AuditLog.license_id a = Some n ∧
                    n ∈ License.id <$> licenses s') (audit_logs s').
Proof.
  intros Heff Hrefs.
  destruct Heff; simpl; rewrite ?fmap_app;
    rewrite ?(fmap_insert_keep License.id _ _ l) by done; try done.
  - apply Forall_app. split; [done|]. apply Forall_singleton. simpl.
    eexists. split; [done|]. apply list_elem_of_fmap. exists lic.
    split; [done|]. apply list_elem_of_lookup. eauto.
  - eapply List.Forall_impl; [|exact Hrefs]. intros a (m & Hm & Hin).
    exists m. split; [done|]. apply elem_of_app. by left.
  - apply Forall_app. split; [done|]. apply Forall_singleton. simpl.
    eexists. split; [done|]. apply list_elem_of_fmap. exists l.
    split; [done|]. apply list_elem_of_lookup. eauto.
Qed.

End Shapes.

Lemma first_insert_other {A} (P : A → Prop) `{∀ x, Decision (P x)}
    (table : list A) (i : nat) (x y : A) :
  table !! i = Some x → ¬ P x → ¬ P y →
  Query.first P (<[i := y]> table) = Query.first P table.
Proof.
  unfold Query.first. revert i.
  induction table as [|a table IH]; intros [|i] Hi Hx Hy; simpl in *;
    try done.
  - injection Hi as ->. by rewrite !decide_False.
  - by rewrite (IH i).
Qed.

Section Rows.

Context `{B : PyJWT.Backend} `{E : Sqlite.Engine}.
Variable secret : string.

(** X23. In every reachable store each License row has a non-empty key,
    an expiration, a creation time and a creator: no handler creates a
    license that never expires. *)
Theorem license_rows_shape s i l :
  reachable secret s → licenses s !! i = Some l →
  License.key l ≠ "" ∧ is_Some (License.expires_at l) ∧
  is_Some (License.created_at l) ∧ is_Some (License.created_by l).
Proof.
  intros Hs Hl.
  assert (Forall license_shape (licenses s)) as Hsh.
  { clear Hl. revert s Hs. apply reachable_invariant; [constructor|].
    apply effect_license_shape. }
  rewrite Forall_lookup in Hsh. apply (Hsh i l Hl).
Qed.

(** X24. In every reachable store each Device row is active, has no
    fcm_token and has its registration time set: no handler deactivates a
    device or stores a push token. *)
Theorem device_rows_shape s j d :
  reachable secret s → devices s !! j = Some d →
  Device.is_active d = true ∧ Device.fcm_token d = None ∧
  is_Some (Device.registered_at d).
Proof.
  intros Hs Hd.
  assert (Forall device_shape (devices s)) as Hsh.
  { clear Hd. revert s Hs. apply reachable_invariant; [constructor|].
    apply effect_device_shape. }
  rewrite Forall_lookup in Hsh. apply (Hsh j d Hd).
Qed.

(** X25. In every reachable store each audit entry is a license_activated
    entry, which holds a value under device_id, or a license_revoked
    entry, which holds none.  Either names an existing license, and
    neither records an admin user, an IP address or a user agent: a
    revocation is logged without its actor. *)
Theorem audit_rows_shape s i a :
  reachable secret s → audit_logs s !! i = Some a →
  AuditLog.admin_user_id a = None ∧ AuditLog.ip_address a = None ∧
  AuditLog.user_agent a = None ∧
  ((AuditLog.action a = "license_activated" ∧
    is_Some (AuditLog.device_id a)) ∨
   (AuditLog.action a = "license_revoked" ∧ AuditLog.device_id a = None)) ∧
  ∃ j l, licenses s !! j = Some l ∧
         AuditLog.license_id a = Some (License.id l).
Proof.
  intros Hs Ha.
  assert (Forall audit_shape (audit_logs s)) as Hsh.
  { clear Ha. revert s Hs. apply reachable_invariant; [constructor|].
    apply effect_audit_shape. }
  assert (Forall (λ a, ∃ n, AuditLog.license_id a = Some n ∧
                    n ∈ License.id <$> licenses s) (audit_logs s)) as Hrefs.
  { clear Ha Hsh. revert s Hs. apply reachable_invariant; [constructor|].
    apply effect_audit_refs. }
  rewrite Forall_lookup in Hsh. rewrite Forall_lookup in Hrefs.
  destruct (Hsh i a Ha) as (? & ? & ? & _ & _ & _ & Hkind).
  destruct (Hrefs i a Ha) as (n & Hn & (l & -> & Hl)%list_elem_of_fmap).
  apply list_elem_of_lookup in Hl as [j Hj].
  split_and!; try done. by exists j, l.
Qed.

(** X26. The uniqueness is per device, not per license: two different
    unregistered devices activated on the same valid license both
    succeed, and both end up bound to it. *)
Theorem two_devices_one_license s k d1 d2 info1 info2 clk1 clk2 i lic :
  Query.first (λ l, License.key l = k) (licenses s) = Some (i, lic) →
  License.status lic = "active" →
  expires_before lic (activate_at_expiry_check clk1) = false →
  expires_before lic (activate_at_expiry_check clk2) = false →
  Query.first (λ x, Device.device_id x = d1) (devices s) = None →
  Query.first (λ x, Device.device_id x = d2) (devices s) = None →
  d1 ≠ d2 →
  token_issuable (activate_at_token clk1) →
  token_issuable (activate_at_token clk2) →
  let out1 :=
    activate_license secret s
      (ActivateJson (Some (JsonString k)) (Some (JsonString d1)) info1)
      clk1 in
  let out2 :=
    activate_license secret out1.2
      (ActivateJson (Some (JsonString k)) (Some (JsonString d2)) info2)
      clk2 in
  (∃ token, out1.1 = Activated token "active" (License.expires_at lic)) ∧
  (∃ token, out2.1 = Activated token "active" (License.expires_at lic)) ∧
  ∃ dev1 dev2,
    devices out2.2 = devices s ++ [dev1; dev2] ∧
    Device.device_id dev1 = d1 ∧ Device.device_id dev2 = d2 ∧
    Device.license_id dev1 = License.id lic ∧
    Device.license_id dev2 = License.id lic.
Proof.
  intros Hlic Hst Hexp1 Hexp2 Hd1 Hd2 Hne Ht1 Ht2. cbv zeta.
  rewrite (activate_first_time secret s k d1 info1 clk1 i lic) by done.
  simpl.
  rewrite (activate_first_time secret _ k d2 info2 clk2 i lic); try done.
  - rewrite !issue_token_issuable by done. rewrite Hst. simpl.
    split_and!; [by eexists..|].
    eexists _, _. rewrite <- app_assoc. simpl. by split_and!.
  - simpl. unfold Query.first in *. apply list_find_app_None.
    split; [done|]. simpl. by rewrite decide_False.
Qed.

(** X27. Revoking one license leaves the validation of the devices of
    every other license as it was: the view gives the same answer before
    and after the revocation. *)
Theorem revocation_is_isolated s admin n rclk u vclk j dev :
  Query.first (λ d, Device.device_id d = u) (devices s) = Some (j, dev) →
  Device.license_id dev ≠ n →
  (validate_license u (revoke_license (Some admin) s n rclk).2 vclk).1
    = (validate_license u s vclk).1.
Proof.
  intros Hdev Hother. unfold revoke_license, login_required.
  destruct (Query.first _ (licenses s)) as [[i l]|] eqn:Hl; [|done].
  apply first_lookup in Hl as [Hi Hn]. simpl.
  unfold validate_license. simpl. rewrite Hdev.
  rewrite (first_insert_other _ _ i l); [|done|simpl; congruence..].
  by repeat case_match.
Qed.

(** X28. An activation whose device_id is null registers nothing, logs
    nothing and issues no token, whatever the key.  When the license is
    found active and unexpired it is answered 500 and the store is
    unchanged: the Device row is refused at the commit. *)
Theorem null_device_id_refused s k info clk :
  let out :=
    activate_license secret s (ActivateJson (Some k) (Some JsonNull) info)
      clk in
  devices out.2 = devices s ∧ audit_logs out.2 = audit_logs s ∧
  (∀ token st e, out.1 ≠ Activated token st e) ∧
  (∀ key i lic,
     k = JsonString key →
     Query.first (λ l, License.key l = key) (licenses s) = Some (i, lic) →
     License.status lic = "active" →
     expires_before lic (activate_at_expiry_check clk) = false →
     out = (ActivateError 500 "Internal server error", s)).
Proof.
  cbv zeta. unfold activate_license. simpl. split_and!.
  - by repeat case_match.
  - by repeat case_match.
  - intros token st e. by repeat case_match.
  - intros key i lic -> Hlic Hst Hexp. rewrite Hlic, Hexp.
    by rewrite decide_False by (by rewrite Hst; intros []).
Qed.

(** X29. The Device row of a first activation holds the device_info of
    the body as it came: the string when there is one, the empty string
    when the key is absent, and NULL when the body says null. *)
Theorem device_info_as_given s k d info clk i lic :
  Query.first (λ l, License.key l = k) (licenses s) = Some (i, lic) →
  License.status lic = "active" →
  expires_before lic (activate_at_expiry_check clk) = false →
  Query.first (λ x, Device.device_id x = d) (devices s) = None →
  ∃ dev,
    devices (activate_license secret s
               (ActivateJson (Some (JsonString k)) (Some (JsonString d)) info)
               clk).2 = devices s ++ [dev] ∧
    Device.device_info dev =
      match info with
      | None => Some ""
      | Some JsonNull => None
      | Some (JsonString text) => Some text
      end.
Proof.
  intros Hlic Hst Hexp Hdev.
  rewrite (activate_first_time secret s k d info clk i lic) by done.
  eexists. split; [done|]. simpl. by destruct info as [[|text]|].
Qed.

End Rows.

(** ** The theorems at the sample data

    The sample data is served on the reference engine. *)

#[local] Existing Instance ReferenceEngine.engine.

Ltac by_evaluation :=
  vm_compute; first [ reflexivity | discriminate | split; discriminate ].

Lemma activate_twice_witness :
  ∃ dev entry token1 token2,
    let s := Sample.two_licenses in
    let s1 := Db (licenses s) (devices s ++ [dev]) (audit_logs s ++ [entry]) in
    activate_license (B := ReferenceBackend.backend) Sample.secret s
      (Sample.body "KEY-A" "dev1") (Sample.at_ (Sample.t0 + Sample.second))
      = (Activated token1 "active" (Some Sample.expiry_A), s1) ∧
    activate_license (B := ReferenceBackend.backend) Sample.secret s1
      (Sample.body "KEY-A" "dev1") (Sample.at_ (Sample.t0 + 2 * Sample.second))
      = (Activated token2 "active" (Some Sample.expiry_A), s1) ∧
    Device.device_id dev = "dev1" ∧
    Device.license_id dev = 1 ∧
    jwt_required (B := ReferenceBackend.backend) Sample.secret
      (Some ("Bearer " +:+ token1)) (Sample.t0 + Sample.second) = Call "dev1" ∧
    jwt_required (B := ReferenceBackend.backend) Sample.secret
      (Some ("Bearer " +:+ token2)) (Sample.t0 + 2 * Sample.second)
      = Call "dev1".
Proof.
  apply (activate_twice (B := ReferenceBackend.backend) Sample.secret
           Sample.two_licenses "KEY-A" "dev1" Sample.info Sample.info
           (Sample.at_ (Sample.t0 + Sample.second))
           (Sample.at_ (Sample.t0 + 2 * Sample.second))
           0%nat Sample.license_A); by_evaluation.
Defined.

Lemma activate_conflict_witness :
  activate_license (B := ReferenceBackend.backend) Sample.secret
    Sample.dev1_on_A (Sample.body "KEY-B" "dev1")
    (Sample.at_ (Sample.t0 + 2 * Sample.second))
  = (ActivateError 400 "Device already registered with different license",
     Sample.dev1_on_A).
Proof.
  apply (activate_conflict (B := ReferenceBackend.backend) Sample.secret
           Sample.dev1_on_A "KEY-B" "dev1" Sample.info
           (Sample.at_ (Sample.t0 + 2 * Sample.second))
           1%nat Sample.license_B 0%nat Sample.device_1); by_evaluation.
Defined.

Lemma activation_entry_device_id_witness :
  (∃ dev entry,
     devices Sample.dev1_on_A = devices Sample.two_licenses ++ [dev] ∧
     audit_logs Sample.dev1_on_A = audit_logs Sample.two_licenses ++ [entry] ∧
     Device.device_id dev = "dev1" ∧
     AuditLog.action entry = "license_activated" ∧
     AuditLog.device_id entry = Some (Sqlite.Text "dev1") ∧
     AuditLog.device_id entry ≠ Some (Sqlite.Integer (Device.id dev))) ∧
  (∃ dev entry,
     devices Scenario.numeric_device = devices Sample.two_licenses ++ [dev] ∧
     audit_logs Scenario.numeric_device
       = audit_logs Sample.two_licenses ++ [entry] ∧
     Device.device_id dev = "1" ∧
     AuditLog.action entry = "license_activated" ∧
     AuditLog.device_id entry = Some (Sqlite.Integer 1) ∧
     AuditLog.device_id entry = Some (Sqlite.Integer (Device.id dev))).
Proof.
  split.
  - destruct (activation_entry_device_id (B := ReferenceBackend.backend)
                Sample.secret Sample.two_licenses (Sample.body "KEY-A" "dev1")
                "dev1" (Sample.at_ (Sample.t0 + Sample.second))
                Scenario.first_token "active" (Some Sample.expiry_A)
                Sample.dev1_on_A eq_refl
                ltac:(by_evaluation) ltac:(by_evaluation))
      as (dev & entry & Hdevs & Hlogs & Hd & _ & Hact & _ & Htext & _).
    destruct (Htext ltac:(by_evaluation)) as [Hkept Hother].
    exists dev, entry. by split_and!.
  - destruct (activation_entry_device_id (B := ReferenceBackend.backend)
                Sample.secret Sample.two_licenses (Sample.body "KEY-A" "1")
                "1" (Sample.at_ (Sample.t0 + Sample.second))
                Scenario.numeric_token "active" (Some Sample.expiry_A)
                Scenario.numeric_device eq_refl
                ltac:(by_evaluation) ltac:(by_evaluation))
      as (dev & entry & Hdevs & Hlogs & Hd & Hid & Hact & _ & _ & Hint).
    destruct (Hint 1 ltac:(by_evaluation) ltac:(by_evaluation))
      as [Hkept Hsame].
    exists dev, entry. split_and!; try done.
    apply Hsame. rewrite Hid. by_evaluation.
Defined.

Lemma revoke_again_witness :
  let clk := RevokeClock (Sample.t0 + 7200 * Sample.second)
                         (Sample.t0 + 7200 * Sample.second) in
  revoke_license (Some 2) Sample.revoked_license 1 clk =
    (Flash "License revoked successfully" "success",
     Db [License.Row 1 "KEY-A" "revoked" (Some Sample.expiry_A)
           (Some Sample.t0) (Some (Sample.t0 + 7200 * Sample.second))
           (Some 1) (Some 2)]
        []
        (audit_logs Sample.revoked_license ++
         [revocation_entry Sample.revoked_license 1 Sample.license_A_revoked
            clk])).
Proof.
  apply (revoke_again 2 Sample.revoked_license 1
           (RevokeClock (Sample.t0 + 7200 * Sample.second)
                        (Sample.t0 + 7200 * Sample.second))
           0%nat Sample.license_A_revoked); by_evaluation.
Defined.

Lemma create_any_duration_witness :
  create_license (Some 1) empty_db (CreateForm (Some "KEY-A") (FieldInt (-1)))
    (CreateClock Sample.t0 Sample.t0)
  = (Flash "License created successfully" "success",
     set_licenses
       [License.Row 1 "KEY-A" "active" (Some (Sample.t0 - Sample.day))
          (Some Sample.t0) None (Some 1) None] empty_db).
Proof.
  destruct (create_any_duration 1 empty_db "KEY-A" (-1)
              (CreateClock Sample.t0 Sample.t0) ltac:(discriminate))
    as (_ & Hfresh & _).
  apply Hfresh; [reflexivity|]. vm_compute. repeat split; discriminate.
Defined.

Lemma status_transitions_witness :
  ∃ l',
    licenses (handle (B := ReferenceBackend.backend) Sample.secret
                Sample.expired_license
                (Sample.revoke 1 1 (Sample.t0 + 60 * Sample.second)))
      !! 0%nat = Some l' ∧
    License.status Sample.license_A_expired = "expired" ∧
    License.status l' = "revoked".
Proof.
  destruct (status_transitions (B := ReferenceBackend.backend) Sample.secret
              Sample.expired_license
              (Sample.revoke 1 1 (Sample.t0 + 60 * Sample.second))
              0%nat Sample.license_A_expired)
    as (l' & Hl' & _ & _); [apply reachable_run|by_evaluation|].
  exists l'. split_and!; [done|done|].
  vm_compute in Hl'. by injection Hl' as <-.
Defined.

Lemma expiry_is_persistent_witness :
  let r := Sample.activate "KEY-A" "dev1" (Sample.t0 + Sample.second) in
  let s1 := handle (B := ReferenceBackend.backend) Sample.secret
              Sample.lapsing r in
  (respond (B := ReferenceBackend.backend) Sample.secret Sample.lapsing r).1
    = ActivateResponse (ActivateError 400 "License has expired") ∧
  License.status <$> licenses s1 !! 0%nat = Some "expired" ∧
  ∀ rs, ∃ l2,
    licenses (run (B := ReferenceBackend.backend) Sample.secret s1 rs) !! 0%nat
      = Some l2 ∧
    (License.status l2 = "expired" ∨ License.status l2 = "revoked").
Proof.
  assert (checks (B := ReferenceBackend.backend) Sample.secret Sample.lapsing
            (Sample.activate "KEY-A" "dev1" (Sample.t0 + Sample.second)) 0%nat)
    as Hchk.
  { exists "KEY-A", (JsonString "dev1"), Sample.license_A_lapsing.
    split; [reflexivity|]. split; [reflexivity|]. by_evaluation. }
  destruct (expiry_is_persistent (B := ReferenceBackend.backend) Sample.secret
              Sample.lapsing
              (Sample.activate "KEY-A" "dev1" (Sample.t0 + Sample.second))
              0%nat Sample.license_A_lapsing Sample.t0
              ltac:(by_evaluation) ltac:(by_evaluation) ltac:(by_evaluation)
              Hchk ltac:(by_evaluation))
    as (_ & Hst & Hlater).
  split; [by_evaluation|]. split; [exact Hst|].
  intros rs. destruct (Hlater rs) as (l2 & Hl2 & Hst2 & _). by exists l2.
Defined.

Lemma revoked_fails_validation_witness :
  let s2 :=
    (revoke_license (Some 1) Sample.dev1_on_A 1
       (RevokeClock (Sample.t0 + 3600 * Sample.second)
                    (Sample.t0 + 3600 * Sample.second))).2 in
  validate (B := ReferenceBackend.backend) Sample.secret s2
    (Some ("Bearer " +:+ Sample.late_token)) Sample.straddling
  = (ValidateError 400 "License is not active" (Some "revoked"), s2) ∧
  devices s2 !! 0%nat = Some Sample.device_1.
Proof.
  apply (revoked_fails_validation (B := ReferenceBackend.backend) Sample.secret
           Sample.dev1_on_A 1 1
           (RevokeClock (Sample.t0 + 3600 * Sample.second)
                        (Sample.t0 + 3600 * Sample.second))
           0%nat Sample.license_A ltac:(by_evaluation) []
           (Some ("Bearer " +:+ Sample.late_token)) Sample.straddling
           "dev1" 0%nat Sample.device_1); by_evaluation.
Defined.

Lemma token_window_witness :
  let T := Sample.t0 + 500000 in
  let header := Some ("Bearer " +:+ Sample.half_second_token) in
  jwt_required (B := ReferenceBackend.backend) Sample.secret header
    (T + JWT_ACCESS_TOKEN_EXPIRES - Sample.second) = Call "dev1" ∧
  jwt_required (B := ReferenceBackend.backend) Sample.secret header
    (T + JWT_ACCESS_TOKEN_EXPIRES + Sample.second)
    = Reject 401 "Token has expired".
Proof.
  assert (issue_token (B := ReferenceBackend.backend) Sample.secret "dev1"
            Sample.license_A (Sample.t0 + 500000)
          = Activated Sample.half_second_token "active"
              (Some Sample.expiry_A)) as Hissue by by_evaluation.
  destruct (token_window (B := ReferenceBackend.backend) Sample.secret
              "dev1" Sample.license_A (Sample.t0 + 500000)
              (Sample.t0 + 500000 + JWT_ACCESS_TOKEN_EXPIRES - Sample.second)
              Sample.half_second_token "active" (Some Sample.expiry_A) Hissue)
    as (_ & Hacc & _).
  destruct (token_window (B := ReferenceBackend.backend) Sample.secret
              "dev1" Sample.license_A (Sample.t0 + 500000)
              (Sample.t0 + 500000 + JWT_ACCESS_TOKEN_EXPIRES + Sample.second)
              Sample.half_second_token "active" (Some Sample.expiry_A) Hissue)
    as (_ & _ & Hrej & _).
  split; [exact (Hacc ltac:(by_evaluation))|exact (Hrej ltac:(by_evaluation))].
Defined.

Lemma activate_unknown_key_witness :
  activate_license (B := ReferenceBackend.backend) Sample.secret
    Sample.two_licenses (Sample.body "KEY-C" "dev1") (Sample.at_ Sample.t0)
  = (ActivateError 404 "Invalid license key", Sample.two_licenses).
Proof.
  apply (activate_unknown_key (B := ReferenceBackend.backend) Sample.secret
           Sample.two_licenses "KEY-C" "dev1" Sample.info
           (Sample.at_ Sample.t0)); by_evaluation.
Defined.

Lemma validate_license_days_witness :
  let clk := ValidateClock Sample.t0 (Sample.t0 + 2 * Sample.second)
               (Sample.t0 + 2 * Sample.second)
               (Sample.t0 + 2 * Sample.second) in
  let s' := (validate_license "dev1" Sample.dev1_on_A clk).2 in
  licenses s' = licenses Sample.dev1_on_A ∧
  audit_logs s' = audit_logs Sample.dev1_on_A ∧
  length (devices s') = 1%nat ∧
  ∃ n, Some 6 = Some n ∧ 0 ≤ n.
Proof.
  destruct (validate_license_days "dev1" Sample.dev1_on_A
              (ValidateClock Sample.t0 (Sample.t0 + 2 * Sample.second)
                 (Sample.t0 + 2 * Sample.second)
                 (Sample.t0 + 2 * Sample.second))
              "active" (Some Sample.expiry_A) (Some 6)
              (validate_license "dev1" Sample.dev1_on_A
                 (ValidateClock Sample.t0 (Sample.t0 + 2 * Sample.second)
                    (Sample.t0 + 2 * Sample.second)
                    (Sample.t0 + 2 * Sample.second))).2
              ltac:(by_evaluation))
    as (Hl & Ha & _ & Hn & _ & Hdays).
  cbv zeta. split_and!; [done|done|done|].
  apply (Hdays Sample.expiry_A); by_evaluation.
Defined.

(** ** The further properties at the sample data *)

Lemma two_licenses_reachable :
  reachable (B := ReferenceBackend.backend) Sample.secret Sample.two_licenses.
Proof. apply reachable_run. Qed.

Lemma dev1_on_A_reachable :
  reachable (B := ReferenceBackend.backend) Sample.secret Sample.dev1_on_A.
Proof. apply reachable_run_from, reachable_run. Qed.

Lemma revoked_license_reachable :
  reachable (B := ReferenceBackend.backend) Sample.secret
    Sample.revoked_license.
Proof. apply reachable_run. Qed.

Lemma primary_keys_consecutive_witness :
  License.id <$> licenses Sample.dev1_on_A = [1; 2] ∧
  Device.id <$> devices Sample.dev1_on_A = [1] ∧
  AuditLog.id <$> audit_logs Sample.dev1_on_A = [1].
Proof.
  destruct (primary_keys_consecutive (B := ReferenceBackend.backend)
              Sample.secret Sample.dev1_on_A dev1_on_A_reachable)
    as (Hl & Hd & Ha).
  rewrite Hl, Hd, Ha. vm_compute. by split_and!.
Defined.

Lemma license_keys_unique_witness :
  License.key Sample.license_A ≠ License.key Sample.license_B.
Proof.
  apply (license_keys_unique (B := ReferenceBackend.backend) Sample.secret
           Sample.two_licenses 0 1 Sample.license_A Sample.license_B
           two_licenses_reachable); by_evaluation.
Defined.

Lemma numbered_reachable :
  reachable (B := ReferenceBackend.backend) Sample.secret Scenario.numbered.
Proof. apply reachable_run_from, dev1_on_A_reachable. Qed.

Lemma two_devices_reachable :
  reachable (B := ReferenceBackend.backend) Sample.secret Scenario.two_devices.
Proof. apply reachable_run_from, dev1_on_A_reachable. Qed.

Lemma device_ids_unique_witness :
  Device.device_id Sample.device_1 ≠ Device.device_id Scenario.device_2.
Proof.
  apply (device_ids_unique (B := ReferenceBackend.backend) Sample.secret
           Scenario.two_devices 0 1 Sample.device_1 Scenario.device_2
           two_devices_reachable); by_evaluation.
Defined.

Lemma devices_reference_licenses_witness :
  (validate_license "dev1" Sample.dev1_on_A Scenario.hour_later).1
    ≠ ValidateError 404 "License not found" None.
Proof.
  apply (devices_reference_licenses (B := ReferenceBackend.backend)
           Sample.secret Sample.dev1_on_A dev1_on_A_reachable).
Defined.

Lemma license_identity_kept_witness :
  ∃ l',
    licenses (run (B := ReferenceBackend.backend) Sample.secret
                Sample.dev1_on_A Scenario.aftermath) !! 0%nat = Some l' ∧
    License.status l' = "revoked" ∧
    License.key l' = "KEY-A" ∧
    License.expires_at l' = Some Sample.expiry_A.
Proof.
  destruct (license_identity_kept (B := ReferenceBackend.backend)
              Sample.secret Sample.dev1_on_A Scenario.aftermath 0%nat
              Sample.license_A ltac:(by_evaluation))
    as (l' & Hl' & _ & Hkey & Hexp & _).
  exists l'. split_and!; [done| |done|done].
  vm_compute in Hl'. by injection Hl' as <-.
Defined.

Lemma device_binding_kept_witness :
  ∃ d',
    devices (run (B := ReferenceBackend.backend) Sample.secret
               Sample.dev1_on_A Scenario.aftermath) !! 0%nat = Some d' ∧
    Device.device_id d' = "dev1" ∧ Device.license_id d' = 1.
Proof.
  destruct (device_binding_kept (B := ReferenceBackend.backend)
              Sample.secret Sample.dev1_on_A Scenario.aftermath 0%nat
              Sample.device_1 ltac:(by_evaluation))
    as (d' & Hd' & _ & Hid & Hlic & _).
  by exists d'.
Defined.

Lemma revoked_iff_stamped_witness :
  License.status Sample.license_A_revoked = "revoked" ∧
  is_Some (License.revoked_at Sample.license_A_revoked) ∧
  is_Some (License.revoked_by Sample.license_A_revoked).
Proof.
  destruct (revoked_iff_stamped (B := ReferenceBackend.backend) Sample.secret
              Sample.revoked_license 0%nat Sample.license_A_revoked
              revoked_license_reachable ltac:(by_evaluation))
    as [[Hat _] [Hby _]].
  split; [done|]. split; [by apply Hat|by apply Hby].
Defined.

Lemma activation_entries_list_devices_witness :
  Device.license_id <$> devices Scenario.numbered = [1; 2] ∧
  AuditLog.license_id <$> activation_entries Scenario.numbered
    = [Some 1; Some 2].
Proof.
  split; [by_evaluation|].
  rewrite (activation_entries_list_devices (B := ReferenceBackend.backend)
             Sample.secret Scenario.numbered numbered_reachable).
  by_evaluation.
Defined.

Lemma statuses_known_witness :
  License.status Sample.license_A_revoked = "active" ∨
  License.status Sample.license_A_revoked = "expired" ∨
  License.status Sample.license_A_revoked = "revoked".
Proof.
  apply (statuses_known (B := ReferenceBackend.backend) Sample.secret
           Sample.revoked_license 0%nat Sample.license_A_revoked
           revoked_license_reachable); by_evaluation.
Defined.

Lemma admin_devices_lists_all_witness :
  admin_devices Sample.dev1_on_A ≡ₚ devices Sample.dev1_on_A.
Proof.
  apply (admin_devices_lists_all (B := ReferenceBackend.backend) Sample.secret
           Sample.dev1_on_A dev1_on_A_reachable).
Defined.

Lemma activate_then_validate_witness :
  (validate (B := ReferenceBackend.backend) Sample.secret Sample.dev1_on_A
     (Some ("Bearer " +:+ Scenario.first_token)) Scenario.hour_later).1
  = Valid "active" (Some Sample.expiry_A) (Some 6).
Proof.
  destruct (activate_then_validate (B := ReferenceBackend.backend)
              Sample.secret Sample.two_licenses (Sample.body "KEY-A" "dev1")
              (Sample.at_ (Sample.t0 + Sample.second))
              Scenario.first_token "active" (Some Sample.expiry_A)
              Sample.dev1_on_A Scenario.hour_later
              two_licenses_reachable ltac:(by_evaluation)
              ltac:(by_evaluation))
    as (j & dev & _ & _ & Hvalid).
  { intros e [= <-]. by_evaluation. }
  rewrite Hvalid. by_evaluation.
Defined.

Lemma create_then_activate_witness :
  let s1 :=
    (create_license (Some 1) empty_db
       (CreateForm (Some "KEY-A") (FieldInt 0))
       (CreateClock Sample.t0 Sample.t0)).2 in
  (∃ token,
     (activate_license (B := ReferenceBackend.backend) Sample.secret s1
        (Sample.body "KEY-A" "dev1") (Sample.at_ Sample.t0)).1
     = Activated token "active" (Some Sample.t0)) ∧
  (activate_license (B := ReferenceBackend.backend) Sample.secret s1
     (Sample.body "KEY-A" "dev1") (Sample.at_ (Sample.t0 + 1))).1
  = ActivateError 400 "License has expired".
Proof.
  cbv zeta. split.
  - destruct (create_then_activate (B := ReferenceBackend.backend)
                Sample.secret 1 empty_db "KEY-A" 0
                (CreateClock Sample.t0 Sample.t0) "dev1" Sample.info
                (Sample.at_ Sample.t0)
                ltac:(discriminate) ltac:(by_evaluation) ltac:(by_evaluation)
                ltac:(by_evaluation) ltac:(by_evaluation)
                ltac:(by_evaluation))
      as [Hin _].
    apply Hin. by_evaluation.
  - destruct (create_then_activate (B := ReferenceBackend.backend)
                Sample.secret 1 empty_db "KEY-A" 0
                (CreateClock Sample.t0 Sample.t0) "dev1" Sample.info
                (Sample.at_ (Sample.t0 + 1))
                ltac:(discriminate) ltac:(by_evaluation) ltac:(by_evaluation)
                ltac:(by_evaluation) ltac:(by_evaluation)
                ltac:(by_evaluation))
      as [_ Hout].
    apply Hout. by_evaluation.
Defined.

Lemma revoked_fails_activation_witness :
  let s2 :=
    (revoke_license (Some 1) Sample.dev1_on_A 1 Scenario.revoke_B).2 in
  activate_license (B := ReferenceBackend.backend) Sample.secret s2
    (Sample.body "KEY-A" "dev2") (Sample.at_ (Sample.t0 + 3600 * Sample.second))
  = (ActivateError 400 "License is not active", s2).
Proof.
  apply (revoked_fails_activation (B := ReferenceBackend.backend)
           Sample.secret Sample.dev1_on_A 1 1 Scenario.revoke_B 0%nat
           Sample.license_A dev1_on_A_reachable ltac:(by_evaluation) []
           (JsonString "dev2") Sample.info
           (Sample.at_ (Sample.t0 + 3600 * Sample.second))).
Defined.

Lemma bearer_prefix_optional_witness :
  jwt_required (B := ReferenceBackend.backend) Sample.secret
    (Some ("Bearer " +:+ Scenario.first_token)) (Sample.t0 + Sample.second)
  = jwt_required (B := ReferenceBackend.backend) Sample.secret
      (Some Scenario.first_token) (Sample.t0 + Sample.second).
Proof.
  apply (bearer_prefix_optional (B := ReferenceBackend.backend) Sample.secret
           Scenario.first_token (Sample.t0 + Sample.second)); by_evaluation.
Defined.

Lemma token_without_user_id_witness :
  jwt_required (B := ReferenceBackend.backend) Sample.secret
    (Some ("Bearer " +:+ Scenario.no_subject_token)) Sample.t0
  = Reject 500 "Internal server error".
Proof.
  apply (token_without_user_id (B := ReferenceBackend.backend) Sample.secret
           ("Bearer " +:+ Scenario.no_subject_token) Sample.t0
           (PyJWT.Jws "HS256" Scenario.no_subject
              (PyJWT.segments (Backend := ReferenceBackend.backend)
                 Scenario.no_subject)
              (PyJWT.hmac_sha256 (Backend := ReferenceBackend.backend)
                 Sample.secret
                 (PyJWT.segments (Backend := ReferenceBackend.backend)
                    Scenario.no_subject)))
           ltac:(discriminate) ltac:(by_evaluation) ltac:(reflexivity)
           ltac:(reflexivity) ltac:(reflexivity) ltac:(intros e [=])).
Defined.

Lemma token_of_other_secret_witness :
  jwt_required (B := ReferenceBackend.backend) Sample.secret
    (Some ("Bearer " +:+
           PyJWT.encode (B := ReferenceBackend.backend) "dev1" 1
             (Sample.t0 + JWT_ACCESS_TOKEN_EXPIRES) Scenario.other_secret))
    Sample.t0
  = Reject 401 "Token is invalid".
Proof.
  apply (token_of_other_secret (B := ReferenceBackend.backend) Sample.secret
           "dev1" 1 (Sample.t0 + JWT_ACCESS_TOKEN_EXPIRES)
           Scenario.other_secret Sample.t0).
  by_evaluation.
Defined.

Lemma license_rows_shape_witness :
  License.key Sample.license_A ≠ "" ∧
  is_Some (License.expires_at Sample.license_A) ∧
  is_Some (License.created_at Sample.license_A) ∧
  is_Some (License.created_by Sample.license_A).
Proof.
  apply (license_rows_shape (B := ReferenceBackend.backend) Sample.secret
           Sample.two_licenses 0%nat Sample.license_A two_licenses_reachable).
  by_evaluation.
Defined.

Lemma device_rows_shape_witness :
  Device.is_active Sample.device_1 = true ∧
  Device.fcm_token Sample.device_1 = None ∧
  is_Some (Device.registered_at Sample.device_1).
Proof.
  apply (device_rows_shape (B := ReferenceBackend.backend) Sample.secret
           Sample.dev1_on_A 0%nat Sample.device_1 dev1_on_A_reachable).
  by_evaluation.
Defined.

Lemma audit_rows_shape_witness :
  ∃ a,
    audit_logs Sample.revoked_license !! 0%nat = Some a ∧
    AuditLog.action a = "license_revoked" ∧
    AuditLog.admin_user_id a = None.
Proof.
  eexists. split; [by_evaluation|].
  split; [reflexivity|].
  eapply (audit_rows_shape (B := ReferenceBackend.backend) Sample.secret
            Sample.revoked_license 0%nat _ revoked_license_reachable).
  by_evaluation.
Defined.

Lemma two_devices_one_license_witness :
  ∃ dev1 dev2,
    devices
      (activate_license (B := ReferenceBackend.backend) Sample.secret
         (activate_license (B := ReferenceBackend.backend) Sample.secret
            Sample.two_licenses (Sample.body "KEY-A" "dev1")
            (Sample.at_ (Sample.t0 + Sample.second))).2
         (Sample.body "KEY-A" "dev2")
         (Sample.at_ (Sample.t0 + 2 * Sample.second))).2
      = devices Sample.two_licenses ++ [dev1; dev2] ∧
    Device.device_id dev1 = "dev1" ∧ Device.device_id dev2 = "dev2" ∧
    Device.license_id dev1 = 1 ∧ Device.license_id dev2 = 1.
Proof.
  apply (two_devices_one_license (B := ReferenceBackend.backend) Sample.secret
           Sample.two_licenses "KEY-A" "dev1" "dev2" Sample.info
           Sample.info (Sample.at_ (Sample.t0 + Sample.second))
           (Sample.at_ (Sample.t0 + 2 * Sample.second)) 0%nat Sample.license_A);
    by_evaluation.
Defined.

Lemma revocation_is_isolated_witness :
  (validate_license "dev1"
     (revoke_license (Some 1) Sample.dev1_on_A 2 Scenario.revoke_B).2
     Scenario.hour_later).1
  = (validate_license "dev1" Sample.dev1_on_A Scenario.hour_later).1.
Proof.
  apply (revocation_is_isolated Sample.dev1_on_A 1 2 Scenario.revoke_B "dev1"
           Scenario.hour_later 0%nat Sample.device_1); by_evaluation.
Defined.

Lemma null_device_id_refused_witness :
  activate_license (B := ReferenceBackend.backend) Sample.secret
    Sample.two_licenses
    (ActivateJson (Some (JsonString "KEY-A")) (Some JsonNull) Sample.info)
    (Sample.at_ (Sample.t0 + Sample.second))
  = (ActivateError 500 "Internal server error", Sample.two_licenses).
Proof.
  pose proof (null_device_id_refused (B := ReferenceBackend.backend)
                Sample.secret Sample.two_licenses (JsonString "KEY-A")
                Sample.info (Sample.at_ (Sample.t0 + Sample.second))) as H.
  cbv zeta in H. destruct H as (_ & _ & _ & H).
  apply (H "KEY-A" 0%nat Sample.license_A); by_evaluation.
Defined.

Lemma device_info_as_given_witness :
  ∃ dev,
    devices (activate_license (B := ReferenceBackend.backend) Sample.secret
               Sample.two_licenses
               (ActivateJson (Some (JsonString "KEY-A"))
                  (Some (JsonString "dev1")) (Some JsonNull))
               (Sample.at_ (Sample.t0 + Sample.second))).2
      = devices Sample.two_licenses ++ [dev] ∧
    Device.device_info dev = None.
Proof.
  apply (device_info_as_given (B := ReferenceBackend.backend) Sample.secret
           Sample.two_licenses "KEY-A" "dev1" (Some JsonNull)
           (Sample.at_ (Sample.t0 + Sample.second)) 0%nat Sample.license_A);
    by_evaluation.
Defined.
